(** * FaceToEquation: the curve mathematics of the front-end visualisers

    The repository's JavaScript components re-derive, each on its own, the
    curves that the fitting core describes: polynomial power sums
    ([FeatureVisualizer], [FaceEquations], [FaceVisualizer], [EquationGraph]),
    a trigonometric series ([EquationGraph]), Bezier curves and a rotated
    ellipse ([EnhancedFaceVisualizer]).  This file embeds those functions
    and compares them with the evaluator, the basis library and the fitter
    that the specification describes.

    JavaScript numbers are read as real numbers: no rounding, no [NaN], no
    infinities.  [Math.pow x k] with a natural exponent is [x ^ k] (both give
    [1] for [k = 0]), [Math.sin], [Math.cos] and [Math.PI] are [sin], [cos]
    and [PI].  A missing object property is [None]; reading a property of
    [undefined] raises [TypeError]. *)

From stdpp Require Import gmap strings.
From Stdlib Require Import Reals Lra Lia List ZArith Ascii.
Import ListNotations.

(** ** Completions of JavaScript code *)

Inductive JsError : Type :=
| TypeError.

Inductive Completion (A : Type) : Type :=
| Normal (a : A)
| Throw (e : JsError).

Arguments Normal {A} a.
Arguments Throw {A} e.

#[global] Instance Completion_ret : MRet Completion := fun A a => Normal a.

#[global] Instance Completion_bind : MBind Completion := fun A B k c =>
  match c with
  | Normal a => k a
  | Throw e => Throw e
  end.

(** Reading through a property that may be [undefined]: [o.p.q] throws when
    [o.p] is missing. *)
Definition required {A : Type} (o : option A) : Completion A :=
  match o with
  | Some a => Normal a
  | None => Throw TypeError
  end.

(** ** Data exchanged with the back end *)

Definition Point : Type := (R * R)%type.

(** The entry of [equations] for one feature, as the polynomial and
    trigonometric components read it. *)
Record Equation : Type := {
  eq_type : string;
  eq_equation : string;
  eq_coefficients : option (list R);
  eq_parameters : option (list R)
}.

(** The response of the back end: [{ landmarks: {...}, equations: {...} }];
    either object may be missing. *)
Record FaceData : Type := {
  landmarks : option (gmap string (list Point));
  equations : option (gmap string Equation)
}.

(** [{ x, y }] of [EquationGraph]; [y] stays [undefined] ([None]) when it is
    read from an empty parameter array. *)
Record GraphPoint : Type := {
  gp_x : R;
  gp_y : option R
}.

Inductive PointKind : Type :=
| curve
| point.

(** [{ x, y, type }] *)
Record PlotPoint : Type := {
  pp_x : R;
  pp_y : R;
  pp_type : PointKind
}.

(** A jawline half: [{ coefficients: [[...x...], [...y...]], degree }] *)
Record Spline : Type := {
  spline_coefficients : list (list R);
  spline_degree : Z
}.

(** A Cupid's-bow segment: [{ start, control, end }] *)
Record BowSegment : Type := {
  seg_start : Point;
  seg_control : Point;
  seg_end : Point
}.

(** What [EnhancedFaceVisualizer] reads besides [type]: [segments];
    [center] and [parameters: { a, b, theta }]; [cupids_bow.segments] (when
    [cupids_bow] is there) and the [control_points] of the entries of
    [curves]; [parameters: { x, c }].  The four shapes use disjoint
    properties (or [parameters] with disjoint members), so an object of one
    shape read as another one yields a [TypeError]. *)
Inductive Payload : Type :=
| spline_segments (segments : gmap string Spline)
| eye_parameters (center : Point) (a b theta : R)
| lips_curves (cupids_bow : option (gmap string BowSegment))
              (curves : gmap string (list Point))
| hermite_parameters (x c : list R)
| no_payload.

Record FeatureEquation : Type := {
  fe_type : string;
  fe_payload : Payload
}.

(** [{ x, y, type: 'curve', feature }] *)
Record FeaturePoint : Type := {
  fp_x : R;
  fp_y : R;
  fp_type : PointKind;
  fp_feature : string
}.

(** What [parseInt] returns. *)
Inductive JsInt : Type :=
| NaN
| Num (z : Z).

(** The form posted to [/api/face/upload] (the file left out). *)
Record UploadForm : Type := {
  form_equation_type : string;
  form_degree : JsInt
}.

Module Js.

Local Open Scope R_scope.

(** *** Polynomial power sum

    [let y = 0;
     for (let j = 0; j < coefficients.length; j++)
       y += coefficients[j] * Math.pow(x, coefficients.length - 1 - j);]

    [cs] is the part of the array from index [j] on, [len] the length of the
    whole array. *)
Fixpoint power_sum_from (len j : nat) (cs : list R) (x y : R) : R :=
  match cs with
  | [] => y
  | c :: cs' => power_sum_from len (S j) cs' x (y + c * x ^ (len - 1 - j))
  end.

Definition power_sum (coefficients : list R) (x : R) : R :=
  power_sum_from (length coefficients) 0 coefficients x 0.

(** [for (let i = 0; i <= numPoints; i++) { const x = i / numPoints; ... }] *)
Definition curve_samples (numPoints : nat) (coefficients : list R) : list PlotPoint :=
  map (fun i : nat =>
         let x := INR i / INR numPoints in
         {| pp_x := x; pp_y := power_sum coefficients x; pp_type := curve |})
      (seq 0 (S numPoints)).

(** [points.map(([x, y]) => ({ x, y, type: 'point' }))] *)
Definition landmark_points (pts : list Point) : list PlotPoint :=
  map (fun p : Point => {| pp_x := fst p; pp_y := snd p; pp_type := point |}) pts.

(** [FeatureVisualizer.generateCurvePoints]: the component's [data] prop and
    its [selectedFeature] state are the inputs. *)
Definition generateCurvePoints (data : option FaceData) (selectedFeature : string)
  : Completion (list PlotPoint) :=
  match data with
  | None => Normal []
  | Some d =>
      match equations d ≫= (fun eqs => eqs !! selectedFeature) with
      | None => Normal []
      | Some equation =>
          coefficients ← required (eq_coefficients equation);
          let curvePoints := curve_samples 100 coefficients in
          lms ← required (landmarks d);
          pts ← required (lms !! selectedFeature);
          Normal (curvePoints ++ landmark_points pts)
      end
  end.

(** [FaceEquations.generatePlotData]: [landmarks] and [equations] are state
    variables of the component, [null] until a response arrives. *)
Definition generatePlotData
  (landmarks : option (gmap string (list Point)))
  (equations : option (gmap string Equation))
  (selectedFeature : string) : Completion (list PlotPoint) :=
  match landmarks, equations with
  | Some lms, Some eqs =>
      match lms !! selectedFeature, eqs !! selectedFeature with
      | Some points, Some equation =>
          coeffs ← required (eq_coefficients equation);
          Normal (curve_samples 100 coeffs ++ landmark_points points)
      | _, _ => Normal []
      end
  | _, _ => Normal []
  end.

(** [FaceVisualizer.generateEquationPoints(coefficients, numPoints = 50)] *)
Definition generateEquationPoints (coefficients : list R) (numPoints : nat) : list PlotPoint :=
  curve_samples numPoints coefficients.

(** *** Trigonometric series of [EquationGraph]

    [y = params[0];
     for (let j = 1; j < params.length; j += 2)
       if (j + 1 < params.length)
         y += params[j] * Math.sin(j * Math.PI * x) + params[j+1] * Math.cos(j * Math.PI * x);]

    [ps] is the part of [params] from index [j] on.  With one element left
    the guard [j + 1 < params.length] fails and the next [j] ends the loop. *)
Fixpoint trig_sum_from (j : nat) (ps : list R) (x y : R) : R :=
  match ps with
  | s :: c :: ps' =>
      trig_sum_from (j + 2) ps' x
        (y + (s * sin (INR j * PI * x) + c * cos (INR j * PI * x)))
  | _ => y
  end.

(** Not a function of the component: the closed form of what the loop adds
    for a run of [(sin, cos)] pairs whose first one sits at index [j].  The
    multiple of [pi * x] is the index, which grows by 2 from pair to pair. *)
Fixpoint index_harmonic_sum (j : nat) (pairs : list (R * R)) (x : R) : R :=
  match pairs with
  | [] => 0
  | (s, c) :: pairs' =>
      s * sin (INR j * PI * x) + c * cos (INR j * PI * x) + index_harmonic_sum (j + 2) pairs' x
  end.

Definition trig_series (params : list R) (x : R) : option R :=
  match params with
  | [] => None
  | offset :: ps => Some (trig_sum_from 1 ps x offset)
  end.

(** The value of [y] for one abscissa, by equation type. *)
Definition graph_value (equations : Equation) (coefficients : list R) (x : R)
  : Completion (option R) :=
  if String.eqb (eq_type equations) "polynomial" then
    Normal (Some (power_sum coefficients x))
  else if String.eqb (eq_type equations) "trigonometric" then
    params ← required (eq_parameters equations);
    Normal (trig_series params x)
  else Normal (Some 0).

(** [EquationGraph.generateGraphPoints]; [equations] is the component's prop. *)
Definition generateGraphPoints (equations : option Equation) : Completion (list GraphPoint) :=
  match equations with
  | None => Normal []
  | Some e =>
      match eq_coefficients e with
      | None => Normal []
      | Some coefficients =>
          mapM (fun i : nat =>
                  let x := INR i / INR 100 in
                  y ← graph_value e coefficients x;
                  Normal {| gp_x := x; gp_y := y |})
               (seq 0 101)
      end
  end.

(** *** Bezier curves of [EnhancedFaceVisualizer]

    [const binomial = (n, k) => {
       if (k === 0 || k === n) return 1;
       if (k > n) return 0;
       return binomial(n - 1, k - 1) + binomial(n - 1, k);
     };]

    The evaluator calls it with [n = controlPoints.length - 1] and
    [0 <= i <= n], so its arguments are natural numbers; on them the recursion
    reaches [n = 0] only with [k = 0] or [k > n]. *)
Fixpoint binomial (n k : nat) : nat :=
  if (k =? 0)%nat || (k =? n)%nat then 1%nat
  else if (n <? k)%nat then 0%nat
  else match n with
       | O => 0%nat
       | S n' => (binomial n' (k - 1) + binomial n' k)%nat
       end.

(** [const b = binomial(n, i) * Math.pow(t, i) * Math.pow(1 - t, n - i);] *)
Definition bernstein_weight (n i : nat) (t : R) : R :=
  INR (binomial n i) * t ^ i * (1 - t) ^ (n - i).

(** The loop over [i] for one [t]; [cps] is the part of [controlPoints] from
    index [i] on, [acc] holds [x] and [y]. *)
Fixpoint bezier_from (n i : nat) (cps : list Point) (t : R) (acc : Point) : Point :=
  match cps with
  | [] => acc
  | p :: cps' =>
      let b := bernstein_weight n i t in
      bezier_from n (S i) cps' t (fst acc + fst p * b, snd acc + snd p * b)
  end.

Definition bezier_point (controlPoints : list Point) (t : R) : Point :=
  bezier_from (length controlPoints - 1) 0 controlPoints t (0, 0).

(** [for (let t = 0; t <= bound; t += step)]: the values [t] takes.  The
    loop is cut after [fuel] rounds. *)
Fixpoint for_t (fuel : nat) (t step bound : R) : list R :=
  match fuel with
  | O => []
  | S fuel' =>
      if Rle_dec t bound then t :: for_t fuel' (t + step) step bound else []
  end.

(** With a positive step the loop makes at most [bound / step + 1] rounds;
    [t_values_spec] below shows that this fuel never cuts it short.  Over the
    reals [t] is [k * step] in round [k], and the last round is the one with
    [t = bound] when [bound / step] is an integer.  The doubles of the code
    add [step] with rounding, so that the last value can come out just above
    [bound] and the loop of the code then ends one round earlier than the one
    here. *)
Definition t_values (step bound : R) : list R :=
  for_t (Z.to_nat (up (bound / step)) + 1) 0 step bound.

(** [evaluateBezierCurve(controlPoints, numPoints = 50)]; over the reals
    [numPoints + 1] samples, the last of them at [t = 1]. *)
Definition evaluateBezierCurve (controlPoints : list Point) (numPoints : nat) : list Point :=
  map (bezier_point controlPoints) (t_values (1 / INR numPoints) 1).

(** *** [EnhancedFaceVisualizer.generateFeaturePoints] *)

(** [cs.reduce((sum, c, i) => sum + c * Math.pow(t, top - i), 0)]; the
    exponent is negative when the array is longer than [top + 1].  For [t = 0]
    and a negative exponent [Math.pow] gives [Infinity], which the reals do not
    have; [powerRZ] gives a real number there, and nothing below relies on
    it. *)
Fixpoint reduce_pow_from (i : nat) (cs : list R) (top : Z) (t sum : R) : R :=
  match cs with
  | [] => sum
  | c :: cs' => reduce_pow_from (S i) cs' top t (sum + c * powerRZ t (top - Z.of_nat i))
  end.

Definition curve_point (feature : string) (x y : R) : FeaturePoint :=
  {| fp_x := x; fp_y := y; fp_type := curve; fp_feature := feature |}.

(** One side of the jawline: 50 values of [t], [i / 49]. *)
Definition spline_points (feature : string) (spline : Spline) : Completion (list FeaturePoint) :=
  mapM (fun i : nat =>
          let t := INR i / 49 in
          cx ← required (spline_coefficients spline !! 0%nat);
          cy ← required (spline_coefficients spline !! 1%nat);
          Normal (curve_point feature
                    (reduce_pow_from 0 cx (spline_degree spline) t 0)
                    (reduce_pow_from 0 cy (spline_degree spline) t 0)))
       (seq 0 50).

(** The body of the [parametric_eye] loop. *)
Definition eye_point (center : Point) (a b theta t : R) : Point :=
  (fst center + a * cos t * cos theta - b * sin t * sin theta,
   snd center + a * cos t * sin theta + b * sin t * cos theta).

Definition eye_points (feature : string) (center : Point) (a b theta : R) : list FeaturePoint :=
  map (fun t : R =>
         let p := eye_point center a b theta t in
         curve_point feature (fst p) (snd p))
      (t_values (1 / 10) (2 * PI)).

Definition bezier_points (feature : string) (controlPoints : list Point) : list FeaturePoint :=
  map (fun p : Point => curve_point feature (fst p) (snd p))
      (evaluateBezierCurve controlPoints 50).

Definition bow_points (feature : string) (bow : gmap string BowSegment) (side : string)
  : Completion (list FeaturePoint) :=
  segment ← required (bow !! side);
  Normal (bezier_points feature [seg_start segment; seg_control segment; seg_end segment]).

Definition lip_points (feature : string) (curves : gmap string (list Point)) (part : string)
  : Completion (list FeaturePoint) :=
  control_points ← required (curves !! part);
  Normal (bezier_points feature control_points).

(** The nose bridge: one run of [t] from 0 to 1 in steps of 0.05 for every
    pair of neighbours in [y_vals]. *)
Fixpoint hermite_points (feature : string) (y_vals coeffs : list R) : list FeaturePoint :=
  match y_vals with
  | y0 :: ((y1 :: _) as rest) =>
      map (fun t : R =>
             curve_point feature
               (reduce_pow_from 0 (take 4 coeffs) 3 t 0)
               (y0 + t * (y1 - y0)))
          (t_values (5 / 100) 1)
      ++ hermite_points feature rest coeffs
  | _ => []
  end.

(** The function returns what [console.warn] printed and its completion. *)
Definition generateFeaturePoints (feature : string) (equation : FeatureEquation)
  : list string * Completion (list FeaturePoint) :=
  if String.eqb (fe_type equation) "piecewise_spline" then
    ([], match fe_payload equation with
         | spline_segments segments =>
             l ← (spline ← required (segments !! "left"); spline_points feature spline);
             r ← (spline ← required (segments !! "right"); spline_points feature spline);
             Normal (l ++ r)
         | _ => Throw TypeError
         end)
  else if String.eqb (fe_type equation) "parametric_eye" then
    ([], match fe_payload equation with
         | eye_parameters center a b theta => Normal (eye_points feature center a b theta)
         | _ => Throw TypeError
         end)
  else if String.eqb (fe_type equation) "composite_lips" then
    ([], match fe_payload equation with
         | lips_curves cupids_bow curves =>
             bow ← match cupids_bow with
                   | Some segments =>
                       l ← bow_points feature segments "left";
                       r ← bow_points feature segments "right";
                       Normal (l ++ r)
                   | None => Normal []
                   end;
             upper ← lip_points feature curves "upper";
             lower ← lip_points feature curves "lower";
             Normal (bow ++ upper ++ lower)
         | _ => Throw TypeError
         end)
  else if String.eqb (fe_type equation) "hermite_spline" then
    ([], match fe_payload equation with
         | hermite_parameters y_vals coeffs => Normal (hermite_points feature y_vals coeffs)
         | _ => Throw TypeError
         end)
  else
    (["Unknown equation type: " +:+ fe_type equation], Normal []).

(** *** The degree input of [FaceEquations]

    [<input type="number" value={degree}
            onChange={(e) => setDegree(parseInt(e.target.value))}
            min="1" max="10" />] *)

Definition is_white_space (c : ascii) : bool :=
  let n := N_of_ascii c in
  (n =? 32)%N || ((9 <=? n)%N && (n <=? 13)%N).

Fixpoint trim_start (s : string) : string :=
  match s with
  | String c s' => if is_white_space c then trim_start s' else s
  | EmptyString => s
  end.

Definition digit_of (c : ascii) : option Z :=
  let n := N_of_ascii c in
  if (48 <=? n)%N && (n <=? 57)%N then Some (Z.of_N (n - 48)) else None.

(** The longest run of decimal digits at the start, read as a number; [acc]
    is [None] until a digit was read. *)
Fixpoint leading_digits (s : string) (acc : option Z) : option Z :=
  match s with
  | String c s' =>
      match digit_of c with
      | Some d => leading_digits s' (Some (10 * default 0 acc + d))%Z
      | None => acc
      end
  | EmptyString => acc
  end.

Definition js_int (sign : Z) (digits : option Z) : JsInt :=
  match digits with
  | Some n => Num (sign * n)
  | None => NaN
  end.

(** [parseInt(string)] without a radix, for text that has no [0x] prefix (a
    number input never holds one): white space, a sign, then decimal digits
    up to the first other character.  The digits are read as an exact
    integer; JavaScript rounds an integer beyond [2^53] to the nearest
    double. *)
Definition parseInt (s : string) : JsInt :=
  match trim_start s with
  | String "-" s' => js_int (-1) (leading_digits s' None)
  | String "+" s' => js_int 1 (leading_digits s' None)
  | s' => js_int 1 (leading_digits s' None)
  end.

(** The new value of the [degree] state after the user edited the input. *)
Definition onDegreeChange (value : string) : JsInt := parseInt value.

(** [formData.append('equation_type', equationType);
     formData.append('degree', degree);] *)
Definition uploadForm (equationType : string) (degree : JsInt) : UploadForm :=
  {| form_equation_type := equationType; form_degree := degree |}.

End Js.

(** ** The rest of the components

    What the components do around the curve functions: the data of the
    chart lines, the colours, and the upload handlers. *)

(** The value of [colors[feature] || '#000000']: a colour of the table, or,
    for a key that every object inherits, that member of [Object.prototype]
    (all of them are truthy). *)
Inductive ColorValue : Type :=
| css (color : string)
| object_prototype_member (name : string).

Module Palette.

(** The object literal [colors], the same in every component. *)
Definition colors : list (string * string) :=
  [("jawline", "#2563eb");
   ("right_eyebrow", "#16a34a"); ("left_eyebrow", "#16a34a");
   ("nose_bridge", "#dc2626"); ("nose_tip", "#dc2626");
   ("right_eye", "#4f46e5"); ("left_eye", "#4f46e5");
   ("outer_lips", "#db2777"); ("inner_lips", "#db2777")].

Definition object_prototype_members : list string :=
  ["constructor"; "__defineGetter__"; "__defineSetter__"; "hasOwnProperty";
   "__lookupGetter__"; "__lookupSetter__"; "isPrototypeOf";
   "propertyIsEnumerable"; "toString"; "valueOf"; "__proto__"; "toLocaleString"].

Fixpoint own_property (key : string) (entries : list (string * string)) : option string :=
  match entries with
  | [] => None
  | (k, v) :: entries' => if String.eqb k key then Some v else own_property key entries'
  end.

(** [return colors[feature] || '#000000';] *)
Definition getFeatureColor (feature : string) : ColorValue :=
  match own_property feature colors with
  | Some color => css color
  | None =>
      if existsb (String.eqb feature) object_prototype_members
      then object_prototype_member feature
      else css "#000000"
  end.

End Palette.

Module FeatureVisualizer.

(** The nine buttons; [selectedFeature] is one of them. *)
Definition features : list string :=
  ["jawline"; "right_eyebrow"; "left_eyebrow"; "nose_bridge";
   "nose_tip"; "right_eye"; "left_eye"; "outer_lips"; "inner_lips"].

(** [generateCurvePoints().filter(p => p.type === 'curve')] and
    [... === 'point']: the data of the two lines of the chart. *)
Definition has_type (kind : PointKind) (p : PlotPoint) : bool :=
  match pp_type p, kind with
  | curve, curve => true
  | point, point => true
  | _, _ => false
  end.

Definition line_data (kind : PointKind) (data : list PlotPoint) : list PlotPoint :=
  List.filter (has_type kind) data.

End FeatureVisualizer.

(** [faceData] of [FaceVisualizer]: it walks through the entries of
    [landmarks], in the order of [Object.entries], and looks the equations
    up by key. *)
Record VisualizerData : Type := {
  vd_landmarks : option (list (string * list Point));
  vd_equations : option (gmap string Equation)
}.

(** [{ feature, data, color }] *)
Record Series : Type := {
  series_feature : string;
  series_data : list PlotPoint;
  series_color : ColorValue
}.

(** What a component renders: the alert that no data is there, or a chart. *)
Inductive Rendered (A : Type) : Type :=
| no_face_data
| chart (a : A).

Arguments no_face_data {A}.
Arguments chart {A} a.

Module FaceVisualizer.

(** The callback of [Object.entries(faceData.landmarks).map(...)]: the curve
    is computed before [showCurves] is looked at. *)
Definition feature_series (equations : gmap string Equation) (showPoints showCurves : bool)
  (entry : string * list Point) : Completion Series :=
  let feature := fst entry in
  equation ← required (equations !! feature);
  coefficients ← required (eq_coefficients equation);
  let curvePoints := Js.generateEquationPoints coefficients 50 in
  let originalPoints := Js.landmark_points (snd entry) in
  Normal {| series_feature := feature;
            series_data := (if showCurves then curvePoints else [])
                           ++ (if showPoints then originalPoints else []);
            series_color := Palette.getFeatureColor feature |}.

(** The component up to the chart: the alert when [landmarks] or [equations]
    is missing, else [allFeatureData]. *)
Definition allFeatureData (faceData : option VisualizerData) (showPoints showCurves : bool)
  : Completion (Rendered (list Series)) :=
  match faceData with
  | Some d =>
      match vd_landmarks d, vd_equations d with
      | Some lms, Some eqs =>
          series ← mapM (feature_series eqs showPoints showCurves) lms;
          Normal (chart series)
      | _, _ => Normal no_face_data
      end
  | None => Normal no_face_data
  end.

End FaceVisualizer.

(** [faceData] of [EnhancedFaceVisualizer]: it walks through the entries of
    [equations], in the order of [Object.entries], and looks the landmarks
    up by key. *)
Record EnhancedFaceData : Type := {
  efd_landmarks : option (gmap string (list Point));
  efd_equations : option (list (string * FeatureEquation))
}.

Module EnhancedFaceVisualizer.

(** [faceData.landmarks[feature].map(([x, y]) => ({ x, y, type: 'point', feature }))] *)
Definition original_points (feature : string) (pts : list Point) : list FeaturePoint :=
  map (fun p : Point =>
         {| fp_x := fst p; fp_y := snd p; fp_type := point; fp_feature := feature |})
      pts.

(** The callback of [flatMap] for one entry: what it prints and what it
    returns. *)
Definition feature_entry (landmarks : gmap string (list Point)) (showCurves showPoints : bool)
  (feature : string) (equation : FeatureEquation) : list string * Completion (list FeaturePoint) :=
  let curves :=
    if showCurves then Js.generateFeaturePoints feature equation else ([], Normal []) in
  (fst curves,
   curvePoints ← snd curves;
   originalPoints ← (if showPoints
                     then pts ← required (landmarks !! feature);
                          Normal (original_points feature pts)
                     else Normal []);
   Normal (curvePoints ++ originalPoints)).

(** [Object.entries(faceData.equations).flatMap(...)]: the warnings printed
    up to the end, or up to the entry that throws. *)
Fixpoint flatMap_entries (landmarks : gmap string (list Point)) (showCurves showPoints : bool)
  (entries : list (string * FeatureEquation)) : list string * Completion (list FeaturePoint) :=
  match entries with
  | [] => ([], Normal [])
  | (feature, equation) :: entries' =>
      let r := feature_entry landmarks showCurves showPoints feature equation in
      match snd r with
      | Throw e => (fst r, Throw e)
      | Normal ps =>
          let rs := flatMap_entries landmarks showCurves showPoints entries' in
          (fst r ++ fst rs, qs ← snd rs; Normal (ps ++ qs))
      end
  end.

Definition allFeatureData (faceData : option EnhancedFaceData) (showCurves showPoints : bool)
  : list string * Completion (list FeaturePoint) :=
  match faceData with
  | Some d =>
      match efd_landmarks d, efd_equations d with
      | Some lms, Some eqs => flatMap_entries lms showCurves showPoints eqs
      | _, _ => ([], Normal [])
      end
  | None => ([], Normal [])
  end.

(** [!selectedFeature]: no selection, or the empty key. *)
Definition no_selection (selectedFeature : option string) : bool :=
  match selectedFeature with
  | None => true
  | Some s => String.eqb s ""
  end.

Definition is_selected (selectedFeature : option string) (feature : string) : bool :=
  match selectedFeature with
  | None => false
  | Some s => String.eqb s feature
  end.

(** [Object.keys(faceData.equations)
       .filter(feature => !selectedFeature || feature === selectedFeature)] *)
Definition visible_features (selectedFeature : option string) (keys : list string) : list string :=
  List.filter (fun feature => no_selection selectedFeature || is_selected selectedFeature feature)
              keys.

(** [allFeatureData.filter(point => point.feature === feature)] *)
Definition line_data (data : list FeaturePoint) (feature : string) : list FeaturePoint :=
  List.filter (fun p => String.eqb (fp_feature p) feature) data.

(** [onClick={() => setSelectedFeature(selectedFeature === feature ? null : feature)}] *)
Definition toggle_feature (selectedFeature : option string) (feature : string) : option string :=
  if is_selected selectedFeature feature then None else Some feature.

End EnhancedFaceVisualizer.

(** A chosen file, known by its name: the handlers only pass it on. *)
Definition File : Type := string.

(** How a [fetch] with its [response.json()] ends: a rejected promise (a
    network failure, a body that is no JSON, or a property read from a [null]
    body) with the message of the error, a response that is not [ok], or the
    parsed body. *)
Inductive Outcome (A : Type) : Type :=
| rejected (message : string)
| not_ok
| ok (data : A).

Arguments rejected {A} message.
Arguments not_ok {A}.
Arguments ok {A} data.

(** The first [FaceEquations] component: the upload form with the two
    controls, the list of equations and one chart. *)
Module FaceEquations.

Record State : Type := {
  st_file : option File;
  st_preview : option string;
  st_loading : bool;
  st_error : option string;
  st_landmarks : option (gmap string (list Point));
  st_equations : option (gmap string Equation);
  st_selectedFeature : string;
  st_equationType : string;
  st_degree : JsInt
}.

(** The [useState] initial values. *)
Definition initial : State :=
  {| st_file := None; st_preview := None; st_loading := false; st_error := None;
     st_landmarks := None; st_equations := None;
     st_selectedFeature := "jawline"; st_equationType := "polynomial"; st_degree := Num 4 |}.

Definition features : list string := FeatureVisualizer.features.

(** [handleFileChange]: [selectedFile] is [event.target.files[0]], [url] what
    [URL.createObjectURL] returns for it. *)
Definition handleFileChange (selectedFile : option File) (url : string) (st : State) : State :=
  match selectedFile with
  | Some f =>
      {| st_file := Some f; st_preview := Some url; st_loading := st_loading st;
         st_error := None;
         st_landmarks := st_landmarks st; st_equations := st_equations st;
         st_selectedFeature := st_selectedFeature st;
         st_equationType := st_equationType st; st_degree := st_degree st |}
  | None => st
  end.

(** [onChange={(e) => setDegree(parseInt(e.target.value))}] *)
Definition changeDegree (value : string) (st : State) : State :=
  {| st_file := st_file st; st_preview := st_preview st; st_loading := st_loading st;
     st_error := st_error st;
     st_landmarks := st_landmarks st; st_equations := st_equations st;
     st_selectedFeature := st_selectedFeature st;
     st_equationType := st_equationType st; st_degree := Js.onDegreeChange value |}.

(** [onChange={(e) => setEquationType(e.target.value)}] *)
Definition changeEquationType (value : string) (st : State) : State :=
  {| st_file := st_file st; st_preview := st_preview st; st_loading := st_loading st;
     st_error := st_error st;
     st_landmarks := st_landmarks st; st_equations := st_equations st;
     st_selectedFeature := st_selectedFeature st;
     st_equationType := value; st_degree := st_degree st |}.

(** The state when [uploadImage] has run to its end, [finally] included:
    [error] and the two data objects as the [try] or the [catch] left them. *)
Definition settled (st : State) (error : option string)
  (landmarks : option (gmap string (list Point))) (equations : option (gmap string Equation))
  : State :=
  {| st_file := st_file st; st_preview := st_preview st; st_loading := false;
     st_error := error;
     st_landmarks := landmarks; st_equations := equations;
     st_selectedFeature := st_selectedFeature st;
     st_equationType := st_equationType st; st_degree := st_degree st |}.

(** [uploadImage]: the state after it and the forms it posted; [response] is
    how the request ends. *)
Definition uploadImage (response : Outcome FaceData) (st : State)
  : State * list (File * UploadForm) :=
  match st_file st with
  | None => (st, [])
  | Some f =>
      let form := Js.uploadForm (st_equationType st) (st_degree st) in
      (match response with
       | ok data => settled st None (landmarks data) (equations data)
       | not_ok => settled st (Some "Failed to process image") (st_landmarks st) (st_equations st)
       | rejected message => settled st (Some message) (st_landmarks st) (st_equations st)
       end,
       [(f, form)])
  end.

(** The list of equations, rendered when [equations] is there:
    [features.map((feature) => ... equations[feature].equation ...)] *)
Definition equation_list (st : State) : Completion (list (string * string)) :=
  match st_equations st with
  | Some eqs =>
      mapM (fun feature : string =>
              equation ← required (eqs !! feature);
              Normal (feature, eq_equation equation))
           features
  | None => Normal []
  end.

(** [generatePlotData()] on the state. *)
Definition plotData (st : State) : Completion (list PlotPoint) :=
  Js.generatePlotData (st_landmarks st) (st_equations st) (st_selectedFeature st).

(** [onClick={() => setSelectedFeature(feature)}] *)
Definition selectFeature (feature : string) (st : State) : State :=
  {| st_file := st_file st; st_preview := st_preview st; st_loading := st_loading st;
     st_error := st_error st;
     st_landmarks := st_landmarks st; st_equations := st_equations st;
     st_selectedFeature := feature;
     st_equationType := st_equationType st; st_degree := st_degree st |}.

(** What the user does, with the answers of the browser and the server.  The
    upload button is disabled while a request runs, so the handlers run one
    after the other. *)
Inductive Event : Type :=
| file_change (selectedFile : option File) (url : string)
| degree_change (value : string)
| type_change (value : string)
| feature_click (feature : string)
| upload_click (response : Outcome FaceData).

Definition handle (ev : Event) (st : State) : State * list (File * UploadForm) :=
  match ev with
  | file_change selectedFile url => (handleFileChange selectedFile url st, [])
  | degree_change value => (changeDegree value st, [])
  | type_change value => (changeEquationType value st, [])
  | feature_click feature => (selectFeature feature st, [])
  | upload_click response => uploadImage response st
  end.

(** The component over a run of events: the last state and all the forms
    posted, in order. *)
Fixpoint run (events : list Event) (st : State) : State * list (File * UploadForm) :=
  match events with
  | [] => (st, [])
  | ev :: events' =>
      let r := handle ev st in
      let rs := run events' (fst r) in
      (fst rs, snd r ++ snd rs)
  end.

(** What the controls show after a run of events: the file chosen last, the
    text typed last into the degree input and the type selected last. *)
Definition chosen_file (events : list Event) : option File :=
  fold_left (fun acc ev => match ev with file_change (Some f) _ => Some f | _ => acc end)
            events None.

Definition typed_degree (events : list Event) : option string :=
  fold_left (fun acc ev => match ev with degree_change value => Some value | _ => acc end)
            events None.

Definition selected_type (events : list Event) : option string :=
  fold_left (fun acc ev => match ev with type_change value => Some value | _ => acc end)
            events None.

End FaceEquations.

(** The body of [/api/face/analyze]. *)
Record LandmarkData : Type := {
  ld_landmarks : option (gmap string (list Point));
  ld_image_dimensions : option (nat * nat)
}.

(** The second [FaceEquations] component: it uploads as soon as a file is
    chosen, first for the landmarks and then for the equations, and has no
    control for the equation type or the degree. *)
Module FaceEquationsAuto.

Record State : Type := {
  st_file : option File;
  st_preview : option string;
  st_loading : bool;
  st_error : option string;
  st_faceData : option EnhancedFaceData;
  st_landmarkData : option LandmarkData;
  st_equationType : string;
  st_degree : JsInt
}.

Definition initial : State :=
  {| st_file := None; st_preview := None; st_loading := false; st_error := None;
     st_faceData := None; st_landmarkData := None;
     st_equationType := "polynomial"; st_degree := Num 4 |}.

Inductive Request : Type :=
| analyze (file : File)
| upload (file : File) (form : UploadForm).

Definition settled (st : State) (error : option string)
  (faceData : option EnhancedFaceData) (landmarkData : option LandmarkData) : State :=
  {| st_file := st_file st; st_preview := st_preview st; st_loading := false;
     st_error := error;
     st_faceData := faceData; st_landmarkData := landmarkData;
     st_equationType := st_equationType st; st_degree := st_degree st |}.

(** [uploadImage(selectedFile)]; a body may be [null] ([None]), which is
    stored as it is.  The second request is made only after the first one
    gave a body. *)
Definition uploadImage (selectedFile : File)
  (analysis : Outcome (option LandmarkData)) (generation : Outcome (option EnhancedFaceData))
  (st : State) : State * list Request :=
  match analysis with
  | rejected message => (settled st (Some message) (st_faceData st) (st_landmarkData st),
                         [analyze selectedFile])
  | not_ok => (settled st (Some "Failed to analyze image") (st_faceData st) (st_landmarkData st),
               [analyze selectedFile])
  | ok analyzeData =>
      let form := Js.uploadForm (st_equationType st) (st_degree st) in
      (match generation with
       | rejected message => settled st (Some message) (st_faceData st) analyzeData
       | not_ok => settled st (Some "Failed to generate equations") (st_faceData st) analyzeData
       | ok equationData => settled st None equationData analyzeData
       end,
       [analyze selectedFile; upload selectedFile form])
  end.

(** [handleFileChange] *)
Definition handleFileChange (selectedFile : option File) (url : string)
  (analysis : Outcome (option LandmarkData)) (generation : Outcome (option EnhancedFaceData))
  (st : State) : State * list Request :=
  match selectedFile with
  | Some f =>
      uploadImage f analysis generation
        {| st_file := Some f; st_preview := Some url; st_loading := st_loading st;
           st_error := None;
           st_faceData := st_faceData st; st_landmarkData := st_landmarkData st;
           st_equationType := st_equationType st; st_degree := st_degree st |}
  | None => (st, [])
  end.

(** One use of the file input, with what the browser and the server answer. *)
Record FileChange : Type := {
  fc_file : option File;
  fc_url : string;
  fc_analysis : Outcome (option LandmarkData);
  fc_generation : Outcome (option EnhancedFaceData)
}.

(** The component over a run of file changes: the last state and all the
    requests made, in order. *)
Fixpoint run (changes : list FileChange) (st : State) : State * list Request :=
  match changes with
  | [] => (st, [])
  | c :: changes' =>
      let r := handleFileChange (fc_file c) (fc_url c) (fc_analysis c) (fc_generation c) st in
      let rs := run changes' (fst r) in
      (fst rs, snd r ++ snd rs)
  end.

End FaceEquationsAuto.

(** What the second [ImageLandmarks] component does to its canvas, one
    entry per assignment or call. *)
Inductive CanvasOp : Type :=
| set_width (w : nat)
| set_height (h : nat)
| draw_image (w h : nat)
| set_line_width (w : R)
| set_stroke_style (c : ColorValue)
| set_fill_style (c : ColorValue)
| begin_path
| fill_rect (x y w h : R)
| move_to (x y : R)
| line_to (x y : R)
| close_path
| stroke.

(** The component that joins the landmarks of a feature by lines. *)
Module ImageLandmarks.

(** [['right_eye', 'left_eye', 'outer_lips', 'inner_lips'].includes(feature)] *)
Definition is_closed (feature : string) : bool :=
  existsb (String.eqb feature) ["right_eye"; "left_eye"; "outer_lips"; "inner_lips"].

(** [points.forEach(([x, y], index) => { ... })] for a canvas [w] wide and
    [h] high; [points] is the part of the array from [index] on. *)
Fixpoint draw_points (w h index : nat) (points : list Point) : list CanvasOp :=
  match points with
  | [] => []
  | p :: points' =>
      let canvasX := (fst p * INR w)%R in
      let canvasY := (snd p * INR h)%R in
      fill_rect (canvasX - 2) (canvasY - 2) 4 4
      :: (if (index =? 0)%nat then move_to canvasX canvasY else line_to canvasX canvasY)
      :: draw_points w h (S index) points'
  end.

(** The callback of [Object.entries(landmarks).forEach(...)]. *)
Definition draw_feature (w h : nat) (entry : string * list Point) : list CanvasOp :=
  let color := Palette.getFeatureColor (fst entry) in
  [set_stroke_style color; set_fill_style color; begin_path]
  ++ draw_points w h 0 (snd entry)
  ++ (if is_closed (fst entry) then [close_path] else [])
  ++ [stroke].

(** [img.onload]: [landmarks] are the entries of the prop in the order of
    [Object.entries], [imageDimensions] is [{ width, height }] or missing. *)
Definition onload (landmarks : list (string * list Point)) (imageDimensions : option (nat * nat))
  : Completion (list CanvasOp) :=
  dims ← required imageDimensions;
  let w := fst dims in
  let h := snd dims in
  Normal ([set_width w; set_height h; draw_image w h; set_line_width 2]
          ++ flat_map (draw_feature w h) landmarks).

(** The effect: nothing happens without landmarks or with an empty or
    missing image URL; else the image is loaded and [onload] runs. *)
Definition draw (landmarks : option (list (string * list Point))) (imageUrl : option string)
  (imageDimensions : option (nat * nat)) : Completion (list CanvasOp) :=
  match landmarks, imageUrl with
  | Some lms, Some url =>
      if String.eqb url "" then Normal [] else onload lms imageDimensions
  | _, _ => Normal []
  end.

(** The points of the paths, and the squares: what is seen of a landmark. *)
Definition vertex (op : CanvasOp) : option Point :=
  match op with
  | move_to x y => Some (x, y)
  | line_to x y => Some (x, y)
  | _ => None
  end.

Definition is_fill_rect (op : CanvasOp) : bool :=
  match op with fill_rect _ _ _ _ => true | _ => false end.

Definition is_close_path (op : CanvasOp) : bool :=
  match op with close_path => true | _ => false end.

Definition is_stroke (op : CanvasOp) : bool :=
  match op with stroke => true | _ => false end.

End ImageLandmarks.

(** ** The fitting core, as the specification describes it

    The core (basis library, solver, fitters, evaluator) is not among the
    JavaScript sources; its definitions below follow the specification. *)

Module Core.

Local Open Scope R_scope.

(** Modelled from the spec: the [EquationDescriptor] variants of section 3
    whose closed forms the front end also computes (the evaluator itself is
    missing from the sources). *)
Inductive EquationDescriptor : Type :=
| polynomial (coefficients : list R)
| trigonometric (offset : R) (harmonics : list (R * R))
| bezier (control_points : list Point) (rational_weights : option (list R))
| parametric_ellipse (center : Point) (semi_major semi_minor rotation_theta : R).

(** Modelled from the spec: the polynomial evaluation of [evaluate] (missing
    from the sources), a Horner sum over coefficients ordered from the
    highest degree to the lowest. *)
Definition horner (coefficients : list R) (x : R) : R :=
  fold_left (fun acc c => acc * x + c) coefficients 0.

(** Modelled from the spec: the sum of harmonics of [evaluate] (missing from
    the sources) over the basis of [trig_basis],
    [sin(h * pi * x), cos(h * pi * x)] for [h = 1 .. k]; [h] is the harmonic of
    the first pair of [pairs]. *)
Fixpoint harmonic_sum (h : nat) (pairs : list (R * R)) (x : R) : R :=
  match pairs with
  | [] => 0
  | (s, c) :: pairs' =>
      s * sin (INR h * PI * x) + c * cos (INR h * PI * x) + harmonic_sum (S h) pairs' x
  end.

(** The stored sequence of a trigonometric descriptor: the offset, then the
    [(sin, cos)] pairs one after the other. *)
Definition trig_parameters (offset : R) (harmonics : list (R * R)) : list R :=
  offset :: flat_map (fun p : R * R => [fst p; snd p]) harmonics.

(** Modelled from the spec: Pascal's triangle built row by row, each row
    from the one before it, as the basis library (missing from the sources)
    precomputes it. *)
Definition next_row (row : list nat) : list nat :=
  zip_with Nat.add (0%nat :: row) (row ++ [0%nat]).

Definition pascal_row (n : nat) : list nat := Nat.iter n next_row [1%nat].

Definition pascal_entry (n k : nat) : nat := default 0%nat (pascal_row n !! k).

Definition max_degree : nat := 15.

(** Modelled from the spec: the lookup table of the basis library (missing
    from the sources), rows [0 .. max_degree] of the triangle. *)
Definition pascal_table : list (list nat) :=
  Eval vm_compute in map pascal_row (seq 0 (S max_degree)).

Definition binomial_lookup (n k : nat) : option nat :=
  row ← pascal_table !! n; row !! k.

(** Modelled from the spec: entry [k] of a row of [bernstein(ts, degree)]
    (missing from the sources). *)
Definition bernstein (degree k : nat) (t : R) : R :=
  INR (pascal_entry degree k) * t ^ k * (1 - t) ^ (degree - k).

(** [f 0 a_0 + f 1 a_1 + ...], counting from [i]. *)
Fixpoint sum_from {A : Type} (f : nat -> A -> R) (i : nat) (l : list A) : R :=
  match l with
  | [] => 0
  | a :: l' => f i a + sum_from f (S i) l'
  end.

(** [rational_weights] is optional and defaults to 1. *)
Definition weight_at (rational_weights : option (list R)) (i : nat) : R :=
  match rational_weights with
  | Some ws => default 1 (ws !! i)
  | None => 1
  end.

(** Modelled from the spec: the Bezier evaluation of [evaluate] (missing
    from the sources), the Bernstein-weighted sum over the control points with
    the rational weights, in the usual form of a rational Bezier curve: the
    weighted sum of the points over the sum of the weights. *)
Definition rational_bezier (control_points : list Point) (rational_weights : option (list R))
  (t : R) : Point :=
  let n := (length control_points - 1)%nat in
  let w := fun i : nat => weight_at rational_weights i * bernstein n i t in
  let total := sum_from (fun i (_ : Point) => w i) 0 control_points in
  (sum_from (fun i p => w i * fst p) 0 control_points / total,
   sum_from (fun i p => w i * snd p) 0 control_points / total).

(** Modelled from the spec: [evaluate(descriptor, t) -> (x, y)] of section
    4.5 (missing from the sources), one closed form per variant.  A
    polynomial or trigonometric descriptor gives [y] over the abscissa [t]. *)
Definition evaluate (descriptor : EquationDescriptor) (t : R) : Point :=
  match descriptor with
  | polynomial coefficients => (t, horner coefficients t)
  | trigonometric offset harmonics => (t, offset + harmonic_sum 1 harmonics t)
  | bezier control_points rational_weights => rational_bezier control_points rational_weights t
  | parametric_ellipse center a b theta =>
      (fst center + a * cos t * cos theta - b * sin t * sin theta,
       snd center + a * cos t * sin theta + b * sin t * cos theta)
  end.











(** Modelled from the spec: the degree the polynomial fitter (missing from
    the sources) works with, [min(requested_degree, num_points - 1)]. *)
Definition effective_degree (requested_degree : Z) (num_points : nat) : Z :=
  Z.min requested_degree (Z.of_nat num_points - 1).

(** Modelled from the spec: the validation of the [degree] of a request
    (section 6; the request handling is missing from the sources): a value
    outside the range from 1 to 10 is moved to the nearer end of the range. *)
Definition clamp_degree (degree : Z) : Z := Z.max 1 (Z.min 10 degree).

(** Modelled from the spec: the reasons of section 7 for which a fit is
    refused. *)
Inductive FitError : Type :=
| InsufficientPointsError
| SingularFitError
| UnknownEquationTypeError
| NumericInstabilityError.

(** Modelled from the spec: the degree with which a polynomial request is
    fitted (the request handling is missing from the sources).  A point set
    with fewer than 3 points is refused; otherwise the requested degree is
    validated and then handed to the fitter, which bounds it by the number of
    points. *)
Definition polynomial_degree (requested_degree : Z) (num_points : nat) : FitError + Z :=
  if (num_points <? 3)%nat then inl InsufficientPointsError
  else inr (effective_degree (clamp_degree requested_degree) num_points).

End Core.

(** * Properties *)

Local Open Scope R_scope.

(** ** The functions on small inputs *)

Example power_sum_quadratic : Js.power_sum [1; 2; 3] 2 = 11.
Proof. unfold Js.power_sum. simpl. ring. Qed.

Example horner_quadratic : Core.horner [1; 2; 3] 2 = 11.
Proof. unfold Core.horner. simpl. ring. Qed.

Example binomial_5_2 : Js.binomial 5 2 = 10%nat.
Proof. reflexivity. Qed.

Example binomial_3_5 : Js.binomial 3 5 = 0%nat.
Proof. reflexivity. Qed.

Example pascal_table_row_4 : Core.pascal_table !! 4%nat = Some [1; 4; 6; 4; 1]%nat.
Proof. reflexivity. Qed.

Example binomial_lookup_beyond_table : Core.binomial_lookup 16 3 = None.
Proof. reflexivity. Qed.

Example parseInt_units : Js.parseInt " -12px" = Num (-12).
Proof. reflexivity. Qed.

Example parseInt_fraction : Js.parseInt "2.7" = Num 2.
Proof. reflexivity. Qed.

Example parseInt_empty : Js.parseInt "" = NaN.
Proof. reflexivity. Qed.

Example trig_series_empty : Js.trig_series [] 0 = None.
Proof. reflexivity. Qed.

(** ** Polynomials: Horner sum and power sum *)

Section Polynomial.

Variable x : R.

Lemma horner_step (cs : list R) (acc : R) :
  fold_left (fun a c => a * x + c) cs acc
  = acc * x ^ length cs + fold_left (fun a c => a * x + c) cs 0.
Proof.
  revert acc. induction cs as [|c cs IH]; intros acc; simpl.
  - ring.
  - rewrite (IH (acc * x + c)), (IH (0 * x + c)). ring.
Qed.

Lemma horner_cons (c : R) (cs : list R) :
  Core.horner (c :: cs) x = c * x ^ length cs + Core.horner cs x.
Proof.
  unfold Core.horner. simpl. rewrite horner_step. ring.
Qed.

Lemma power_sum_from_horner (cs : list R) (j : nat) (y : R) :
  Js.power_sum_from (j + length cs) j cs x y = y + Core.horner cs x.
Proof.
  revert j y. induction cs as [|c cs IH]; intros j y.
  - simpl. unfold Core.horner. simpl. ring.
  - cbn [Js.power_sum_from].
    replace (j + length (c :: cs))%nat with (S j + length cs)%nat by (simpl; lia).
    rewrite IH, horner_cons.
    replace (S j + length cs - 1 - j)%nat with (length cs) by lia.
    ring.
Qed.

End Polynomial.

Lemma horner_power_sum (coefficients : list R) (x : R) :
  Core.horner coefficients x = Js.power_sum coefficients x.
Proof.
  unfold Js.power_sum.
  pose proof (power_sum_from_horner x coefficients 0 0) as H.
  simpl in H. rewrite H. ring.
Qed.

(** Every curve sample of the generators lies on the evaluator's curve. *)
Lemma curve_samples_on_curve (numPoints : nat) (coefficients : list R) (p : PlotPoint) :
  In p (Js.curve_samples numPoints coefficients) ->
  (pp_x p, pp_y p) = Core.evaluate (Core.polynomial coefficients) (pp_x p)
  /\ pp_type p = curve.
Proof.
  unfold Js.curve_samples. rewrite in_map_iff.
  intros (i & <- & _). simpl. now rewrite horner_power_sum.
Qed.

(** C1: the evaluator's value of a polynomial descriptor is the Horner sum
    of its coefficients (highest degree first), and that sum is the power sum
    [c_0 * x^n + ... + c_n] that the front-end curve generators accumulate, so
    that each of their curve samples lies on the evaluator's curve. *)
Theorem evaluate_polynomial_horner_power_sum (coefficients : list R) (x : R) :
  Core.evaluate (Core.polynomial coefficients) x = (x, Core.horner coefficients x)
  /\ Core.horner coefficients x = Js.power_sum coefficients x
  /\ forall (numPoints : nat) (p : PlotPoint),
       In p (Js.curve_samples numPoints coefficients) ->
       (pp_x p, pp_y p) = Core.evaluate (Core.polynomial coefficients) (pp_x p).
Proof.
  split; [reflexivity|]. split; [apply horner_power_sum|].
  intros numPoints p Hp. now apply curve_samples_on_curve in Hp.
Qed.

(** ** The trigonometric series *)

Section Trigonometric.

Variable x : R.

(** The loop of [EquationGraph] on a stored sequence of pairs. *)
Lemma trig_sum_from_pairs (pairs : list (R * R)) (j : nat) (y : R) :
  Js.trig_sum_from j (flat_map (fun p : R * R => [fst p; snd p]) pairs) x y
  = y + Js.index_harmonic_sum j pairs x.
Proof.
  revert j y. induction pairs as [|[s c] pairs IH]; intros j y; simpl.
  - ring.
  - rewrite IH. ring.
Qed.

(** A coefficient left without its partner at the end is dropped. *)
Lemma trig_sum_from_odd_tail (pairs : list (R * R)) (s : R) (j : nat) (y : R) :
  Js.trig_sum_from j (flat_map (fun p : R * R => [fst p; snd p]) pairs ++ [s]) x y
  = y + Js.index_harmonic_sum j pairs x.
Proof.
  revert j y. induction pairs as [|[s' c] pairs IH]; intros j y; simpl.
  - ring.
  - rewrite IH. ring.
Qed.

(** What [EquationGraph] draws for a trigonometric descriptor: pair number
    [h] is multiplied by the sine and cosine of [(2 h - 1) * pi * x]. *)
Lemma trig_series_index_harmonics (offset : R) (harmonics : list (R * R)) :
  Js.trig_series (Core.trig_parameters offset harmonics) x
  = Some (offset + Js.index_harmonic_sum 1 harmonics x).
Proof.
  unfold Js.trig_series, Core.trig_parameters. now rewrite trig_sum_from_pairs.
Qed.

(** With at most one harmonic the two sums are the same. *)
Lemma trig_series_one_harmonic (offset : R) (harmonics : list (R * R)) :
  (length harmonics <= 1)%nat ->
  Js.trig_series (Core.trig_parameters offset harmonics) x
  = Some (snd (Core.evaluate (Core.trigonometric offset harmonics) x)).
Proof.
  intros Hlen. rewrite trig_series_index_harmonics.
  destruct harmonics as [|[s c] [|q harmonics]]; simpl in *; try lia; reflexivity.
Qed.

End Trigonometric.

Lemma mapM_Normal {A B : Type} (f : A -> B) (l : list A) :
  mapM (fun a => Normal (f a)) l = Normal (map f l).
Proof.
  induction l as [|a l IH]; [reflexivity|].
  cbn [mapM map]. rewrite IH. reflexivity.
Qed.

(** For a trigonometric equation [generateGraphPoints] puts the series over
    101 abscissas. *)
Lemma generateGraphPoints_trigonometric (e : Equation) (coefficients params : list R) :
  eq_type e = "trigonometric" ->
  eq_coefficients e = Some coefficients ->
  eq_parameters e = Some params ->
  Js.generateGraphPoints (Some e)
  = Normal (map (fun i : nat =>
                   {| gp_x := INR i / INR 100;
                      gp_y := Js.trig_series params (INR i / INR 100) |})
                (seq 0 101)).
Proof.
  intros Htype Hcoeffs Hparams. unfold Js.generateGraphPoints, Js.graph_value.
  rewrite Hcoeffs, Htype, Hparams. cbn [String.eqb Ascii.eqb Bool.eqb required].
  apply (mapM_Normal (fun i : nat =>
           {| gp_x := INR i / INR 100; gp_y := Js.trig_series params (INR i / INR 100) |})).
Qed.

(** C2: at the descriptor with offset 0 and the pairs [(0, 0)], [(1, 0)],
    stored as [[0; 0; 0; 1; 0]], and [x = 1/2], the series of the specification
    is [sin(2 * pi / 2) = 0], while [EquationGraph] multiplies the second pair
    by the sine of [3 * pi * x] and draws [-1]. *)
Theorem trig_series_second_pair_third_harmonic :
  let e := {| eq_type := "trigonometric"; eq_equation := "";
              eq_coefficients := Some [0; 0; 0; 1; 0];
              eq_parameters := Some (Core.trig_parameters 0 [(0, 0); (1, 0)]) |} in
  Core.trig_parameters 0 [(0, 0); (1, 0)] = [0; 0; 0; 1; 0]
  /\ Js.trig_series [0; 0; 0; 1; 0] (1 / 2) = Some (-1)
  /\ Core.evaluate (Core.trigonometric 0 [(0, 0); (1, 0)]) (1 / 2) = (1 / 2, 0)
  /\ exists points : list GraphPoint,
       Js.generateGraphPoints (Some e) = Normal points
       /\ points !! 50%nat
          = Some {| gp_x := INR 50 / INR 100;
                    gp_y := Js.trig_series [0; 0; 0; 1; 0] (INR 50 / INR 100) |}
       /\ INR 50 / INR 100 = 1 / 2.
Proof.
  cbv zeta. split; [reflexivity|]. split; [|split].
  - unfold Js.trig_series. cbn [Js.trig_sum_from Nat.add].
    replace (INR 3 * PI * (1 / 2)) with (3 * (PI / 2)) by (simpl; field).
    rewrite sin_3PI2. f_equal. ring.
  - unfold Core.evaluate. cbn [Core.harmonic_sum].
    replace (INR 2 * PI * (1 / 2)) with PI by (simpl; field).
    rewrite sin_PI. f_equal. ring.
  - eexists. split; [|split].
    + apply (generateGraphPoints_trigonometric _ [0; 0; 0; 1; 0] [0; 0; 0; 1; 0]);
        reflexivity.
    + change (map ?f) with (fmap (M := list) f).
      rewrite list_lookup_fmap, lookup_seq_lt by lia. reflexivity.
    + rewrite !INR_IZR_INZ.
      change (Z.of_nat 50) with 50%Z. change (Z.of_nat 100) with 100%Z. lra.
Qed.

(** ** Binomial coefficients: the recursive rule and Pascal's triangle *)

Lemma binomial_0_r (n : nat) : Js.binomial n 0 = 1%nat.
Proof. destruct n; reflexivity. Qed.

Lemma binomial_diag (n : nat) : Js.binomial n n = 1%nat.
Proof.
  destruct n; [reflexivity|].
  cbn [Js.binomial]. rewrite Nat.eqb_refl, orb_true_r. reflexivity.
Qed.

Lemma binomial_above (n k : nat) : (n < k)%nat -> Js.binomial n k = 0%nat.
Proof.
  intros H.
  assert (Hk : (k =? 0)%nat = false) by (apply Nat.eqb_neq; lia).
  assert (Hn : (k =? n)%nat = false) by (apply Nat.eqb_neq; lia).
  assert (Hlt : (n <? k)%nat = true) by (apply Nat.ltb_lt; lia).
  destruct n; cbn [Js.binomial]; rewrite Hk, ?Hn, Hlt; reflexivity.
Qed.

(** Pascal's rule holds for the recursive function at every column. *)
Lemma binomial_pascal (n k : nat) :
  Js.binomial (S n) (S k) = (Js.binomial n k + Js.binomial n (S k))%nat.
Proof.
  destruct (lt_eq_lt_dec k n) as [[Hlt | ->] | Hgt].
  - cbn [Js.binomial].
    assert (Hn : (S k =? S n)%nat = false) by (apply Nat.eqb_neq; lia).
    assert (Hlt' : (S n <? S k)%nat = false) by (apply Nat.ltb_ge; lia).
    rewrite Hn, Hlt'. cbn [Nat.eqb orb].
    now replace (S k - 1)%nat with k by lia.
  - rewrite (binomial_diag (S n)), binomial_diag, binomial_above; lia.
  - rewrite !binomial_above; lia.
Qed.

Lemma pascal_row_succ (n : nat) :
  Core.pascal_row (S n) = Core.next_row (Core.pascal_row n).
Proof. reflexivity. Qed.

Lemma next_row_length (row : list nat) : length (Core.next_row row) = S (length row).
Proof.
  unfold Core.next_row. rewrite length_zip_with, length_app.
  cbn [length]. lia.
Qed.

Lemma pascal_row_length (n : nat) : length (Core.pascal_row n) = S n.
Proof.
  induction n as [|n IH]; [reflexivity|].
  now rewrite pascal_row_succ, next_row_length, IH.
Qed.

Lemma next_row_lookup_0 (row : list nat) :
  default 0%nat (Core.next_row row !! 0%nat) = default 0%nat (row !! 0%nat).
Proof. destruct row; reflexivity. Qed.

Lemma next_row_lookup_succ (row : list nat) (k : nat) :
  default 0%nat (Core.next_row row !! S k)
  = (default 0%nat (row !! k) + default 0%nat (row !! S k))%nat.
Proof.
  unfold Core.next_row. rewrite lookup_zip_with. cbn [lookup list_lookup].
  destruct (row !! k) as [a|] eqn:Hk; cbn.
  - destruct (decide (S k < length row)%nat) as [Hlt | Hge].
    + rewrite lookup_app_l by lia.
      destruct (lookup_lt_is_Some_2 row (S k) Hlt) as [b Hb].
      rewrite Hb. reflexivity.
    + apply lookup_lt_Some in Hk.
      assert (Hlen : S k = length row) by lia.
      rewrite lookup_app_r by lia.
      rewrite (lookup_ge_None_2 row (S k)) by lia.
      replace (S k - length row)%nat with 0%nat by lia. cbn. lia.
  - apply lookup_ge_None in Hk.
    rewrite (lookup_ge_None_2 row (S k)) by lia. reflexivity.
Qed.

(** The rows built one from the other hold the values of the recursive
    function of the Bezier evaluator. *)
Lemma pascal_entry_binomial (n k : nat) : Core.pascal_entry n k = Js.binomial n k.
Proof.
  unfold Core.pascal_entry. revert k. induction n as [|n IH]; intros k.
  - destruct k as [|k]; [reflexivity|].
    rewrite binomial_above by lia. now destruct k.
  - rewrite pascal_row_succ. destruct k as [|k].
    + rewrite next_row_lookup_0, IH. now rewrite !binomial_0_r.
    + rewrite next_row_lookup_succ, !IH. symmetry. apply binomial_pascal.
Qed.

Lemma pascal_table_rows : Core.pascal_table = map Core.pascal_row (seq 0 (S Core.max_degree)).
Proof. reflexivity. Qed.

Lemma binomial_lookup_entry (n k : nat) :
  (n <= Core.max_degree)%nat -> (k <= n)%nat ->
  Core.binomial_lookup n k = Some (Core.pascal_entry n k).
Proof.
  intros Hn Hk. unfold Core.binomial_lookup, Core.pascal_entry.
  rewrite pascal_table_rows.
  assert (Hrow : map Core.pascal_row (seq 0 (S Core.max_degree)) !! n = Some (Core.pascal_row n)).
  { change (map Core.pascal_row) with (fmap (M := list) Core.pascal_row).
    rewrite list_lookup_fmap, lookup_seq_lt by lia. reflexivity. }
  rewrite Hrow. cbn.
  destruct (lookup_lt_is_Some_2 (Core.pascal_row n) k) as [c Hc].
  { rewrite pascal_row_length. lia. }
  now rewrite Hc.
Qed.

(** C3: for every degree [n <= 15] and every [0 <= k <= n] the lookup in
    the precomputed table of Pascal's triangle succeeds, and its entry is the
    value that the recursive rule of the front-end Bezier evaluator computes. *)
Theorem binomial_lookup_is_recursive_binomial (n k : nat) :
  (n <= 15)%nat -> (k <= n)%nat ->
  Core.binomial_lookup n k = Some (Js.binomial n k).
Proof.
  intros Hn Hk. rewrite binomial_lookup_entry by (unfold Core.max_degree; lia).
  now rewrite pascal_entry_binomial.
Qed.

Lemma binomial_lookup_is_recursive_binomial_witness :
  (4 <= 15)%nat /\ (2 <= 4)%nat /\ Core.binomial_lookup 4 2 = Some (Js.binomial 4 2).
Proof.
  split; [lia|]. split; [lia|].
  apply (binomial_lookup_is_recursive_binomial 4 2); lia.
Defined.

(** ** Bezier curves *)

Lemma C_0_r (n : nat) : C n 0 = 1.
Proof.
  unfold C. rewrite Nat.sub_0_r. simpl.
  field. apply INR_fact_neq_0.
Qed.

Lemma C_diag (n : nat) : C n n = 1.
Proof.
  unfold C. rewrite Nat.sub_diag. simpl.
  field. apply INR_fact_neq_0.
Qed.

(** The recursive function computes the binomial coefficient of the reals. *)
Lemma binomial_C (n k : nat) : (k <= n)%nat -> INR (Js.binomial n k) = C n k.
Proof.
  revert k. induction n as [|n IH]; intros k Hk.
  - replace k with 0%nat by lia. now rewrite C_0_r.
  - destruct k as [|k].
    + now rewrite binomial_0_r, C_0_r.
    + destruct (decide (k = n)) as [-> | Hne].
      * now rewrite binomial_diag, C_diag.
      * rewrite binomial_pascal, plus_INR, !IH by lia.
        apply pascal. lia.
Qed.

Section Bezier.

Variable t : R.

Lemma bernstein_weight_entry (n i : nat) : Core.bernstein n i t = Js.bernstein_weight n i t.
Proof.
  unfold Core.bernstein, Js.bernstein_weight. now rewrite pascal_entry_binomial.
Qed.

(** The accumulators of the loop hold the weighted sums of the coordinates. *)
Lemma bezier_from_sum (n : nat) (cps : list Point) (i : nat) (acc : Point) :
  Js.bezier_from n i cps t acc
  = (fst acc + Core.sum_from (fun k p => Js.bernstein_weight n k t * fst p) i cps,
     snd acc + Core.sum_from (fun k p => Js.bernstein_weight n k t * snd p) i cps).
Proof.
  revert i acc. induction cps as [|p cps IH]; intros i [ax ay]; simpl.
  - f_equal; ring.
  - rewrite IH. simpl. f_equal; ring.
Qed.

Lemma sum_from_ext {A : Type} (f g : nat -> A -> R) (i : nat) (l : list A) :
  (forall k a, f k a = g k a) -> Core.sum_from f i l = Core.sum_from g i l.
Proof.
  intros Hfg. revert i. induction l as [|a l IH]; intros i; simpl.
  - reflexivity.
  - now rewrite Hfg, IH.
Qed.

(** A sum whose terms depend on the index alone is a sum over a range. *)
Lemma sum_from_index {A : Type} (f : nat -> R) (a : A) (l : list A) (i : nat) :
  Core.sum_from (fun k (_ : A) => f k) i (a :: l)
  = sum_f_R0 (fun j => f (i + j)%nat) (length l).
Proof.
  revert a i. induction l as [|b l IH]; intros a i.
  - simpl. rewrite Nat.add_0_r. ring.
  - change (Core.sum_from (fun k (_ : A) => f k) i (a :: b :: l))
      with (f i + Core.sum_from (fun k (_ : A) => f k) (S i) (b :: l)).
    rewrite IH. cbn [length].
    rewrite (decomp_sum (fun j => f (i + j)%nat) (S (length l))) by lia.
    rewrite Nat.add_0_r. cbn [Init.Nat.pred]. f_equal.
    apply sum_eq. intros j _. f_equal. lia.
Qed.

(** The Bernstein weights of one degree add up to 1. *)
Lemma bernstein_weights_total (cps : list Point) :
  cps <> [] ->
  Core.sum_from (fun k (_ : Point) => Js.bernstein_weight (length cps - 1) k t) 0 cps = 1.
Proof.
  destruct cps as [|p cps]; [congruence | intros _].
  rewrite sum_from_index. cbn [length].
  replace (S (length cps) - 1)%nat with (length cps) by lia.
  transitivity ((t + (1 - t)) ^ length cps).
  - rewrite Binomial.binomial. apply sum_eq. intros j Hj.
    unfold Js.bernstein_weight. cbn [Nat.add]. now rewrite binomial_C.
  - replace (t + (1 - t)) with 1 by ring. apply pow1.
Qed.

End Bezier.

Lemma weight_at_absent (i : nat) : Core.weight_at None i = 1.
Proof. reflexivity. Qed.

Lemma weight_at_ones (m i : nat) : Core.weight_at (Some (repeat 1 m)) i = 1.
Proof.
  unfold Core.weight_at.
  destruct (repeat 1 m !! i) as [w|] eqn:Hw; [|reflexivity].
  apply list_elem_of_lookup_2, list_elem_of_In, repeat_spec in Hw. now subst.
Qed.

(** With all weights 1 the rational form is the plain Bernstein sum. *)
Lemma rational_bezier_unit_weights (cps : list Point) (ws : option (list R)) (t : R) :
  cps <> [] ->
  (forall i, Core.weight_at ws i = 1) ->
  Core.rational_bezier cps ws t
  = (Core.sum_from (fun i p => Js.bernstein_weight (length cps - 1) i t * fst p) 0 cps,
     Core.sum_from (fun i p => Js.bernstein_weight (length cps - 1) i t * snd p) 0 cps).
Proof.
  intros Hne Hws. unfold Core.rational_bezier. cbv zeta.
  assert (Htotal :
    Core.sum_from
      (fun i (_ : Point) => Core.weight_at ws i * Core.bernstein (length cps - 1) i t) 0 cps
    = 1).
  { rewrite <- (bernstein_weights_total t cps Hne). apply sum_from_ext.
    intros. rewrite Hws, bernstein_weight_entry. ring. }
  rewrite Htotal.
  f_equal; rewrite Rdiv_1_r; apply sum_from_ext;
    intros; rewrite Hws, bernstein_weight_entry; ring.
Qed.

Lemma evaluate_bezier_unit_weights (cps : list Point) (ws : option (list R)) (t : R) :
  cps <> [] ->
  (forall i, Core.weight_at ws i = 1) ->
  Core.evaluate (Core.bezier cps ws) t = Js.bezier_point cps t.
Proof.
  intros Hne Hws. cbn [Core.evaluate].
  rewrite (rational_bezier_unit_weights _ _ _ Hne Hws).
  unfold Js.bezier_point. rewrite bezier_from_sum. simpl. f_equal; ring.
Qed.

Lemma bernstein_weight_nonneg (n i : nat) (t : R) :
  0 <= t <= 1 -> 0 <= Js.bernstein_weight n i t.
Proof.
  intros [H0 H1]. unfold Js.bernstein_weight.
  repeat apply Rmult_le_pos; [apply pos_INR | apply pow_le | apply pow_le]; lra.
Qed.

Lemma sum_from_shift {A : Type} (f : nat -> A -> R) (l : list A) (i : nat) :
  Core.sum_from f (S i) l = Core.sum_from (fun k a => f (S k) a) i l.
Proof.
  revert i. induction l as [|a l IH]; intros i; simpl; [reflexivity|].
  now rewrite IH.
Qed.

(** The rational weights, read by position, are those of the list when it
    runs parallel to the control points. *)
Lemma sum_from_weights (g : nat -> R -> Point -> R) (cps : list Point) (ws : list R) :
  length ws = length cps ->
  Core.sum_from (fun i p => g i (Core.weight_at (Some ws) i) p) 0 cps
  = Core.sum_from (fun i (pw : Point * R) => g i (snd pw) (fst pw)) 0 (zip cps ws).
Proof.
  revert g ws. induction cps as [|p cps IH]; intros g [|w ws] Hlen;
    try discriminate Hlen; [reflexivity|].
  cbn [zip_with Core.sum_from]. rewrite !sum_from_shift.
  apply (f_equal2 Rplus); [reflexivity|].
  injection Hlen as Hlen. exact (IH (fun k => g (S k)) ws Hlen).
Qed.

Lemma weight_at_all_ones (ws : list R) (i : nat) :
  Forall (fun w => w = 1) ws -> Core.weight_at (Some ws) i = 1.
Proof.
  intros Hws. unfold Core.weight_at.
  destruct (ws !! i) as [w|] eqn:Hw; [|reflexivity].
  rewrite Forall_forall in Hws. apply Hws.
  now apply list_elem_of_In, list_elem_of_lookup_2 with i.
Qed.

Lemma sum_from_lower_bound {A : Type} (w : nat -> R) (g : A -> R) (lo : R) (l : list A)
  (i : nat) :
  (forall k, 0 <= w k) ->
  Forall (fun a => lo <= g a) l ->
  lo * Core.sum_from (fun k (_ : A) => w k) i l <= Core.sum_from (fun k a => w k * g a) i l.
Proof.
  intros Hw Hl. revert i. induction Hl as [|a l Ha _ IH]; intros i; cbn [Core.sum_from].
  - lra.
  - rewrite Rmult_plus_distr_l. apply Rplus_le_compat; [|apply IH].
    rewrite (Rmult_comm lo). apply Rmult_le_compat_l; [apply Hw | exact Ha].
Qed.

(** Weights that are all positive have a positive lower bound. *)
Lemma positive_lower_bound (ws : list R) :
  Forall (fun w => 0 < w) ws -> exists lo, 0 < lo /\ Forall (fun w => lo <= w) ws.
Proof.
  induction 1 as [|w ws Hw _ (lo & Hlo & IH)].
  - exists 1. split; [lra | constructor].
  - exists (Rmin w lo). split; [now apply Rmin_pos|].
    constructor; [apply Rmin_l|].
    eapply Forall_impl; [|exact IH].
    intros a Ha. eapply Rle_trans; [apply Rmin_r | exact Ha].
Qed.

(** With positive weights and [t] between 0 and 1 the weights of a rational
    Bezier curve add up to a positive number. *)
Lemma rational_total_positive (cps : list Point) (ws : list R) (t : R) :
  cps <> [] ->
  length ws = length cps ->
  Forall (fun w => 0 < w) ws ->
  0 <= t <= 1 ->
  0 < Core.sum_from
        (fun i (pw : Point * R) => snd pw * Js.bernstein_weight (length cps - 1) i t)
        0 (zip cps ws).
Proof.
  intros Hne Hlen Hpos Ht.
  destruct (positive_lower_bound ws Hpos) as (lo & Hlo & Hws).
  assert (Hzip : Forall (fun pw : Point * R => lo <= snd pw) (zip cps ws)).
  { apply Forall_forall. intros [p w] Hin. cbn [snd].
    apply list_elem_of_In, elem_of_zip_r in Hin.
    rewrite Forall_forall in Hws. now apply list_elem_of_In, Hws in Hin. }
  assert (Hsum :
    Core.sum_from (fun i (_ : Point * R) => Js.bernstein_weight (length cps - 1) i t)
      0 (zip cps ws) = 1).
  { rewrite <- (bernstein_weights_total t cps Hne).
    rewrite <- (sum_from_weights (fun i _ _ => Js.bernstein_weight (length cps - 1) i t)
                  cps ws Hlen).
    reflexivity. }
  assert (Hlow :
    lo * Core.sum_from (fun i (_ : Point * R) => Js.bernstein_weight (length cps - 1) i t)
           0 (zip cps ws)
    <= Core.sum_from
         (fun i (pw : Point * R) => Js.bernstein_weight (length cps - 1) i t * snd pw)
         0 (zip cps ws)).
  { apply (sum_from_lower_bound (fun i => Js.bernstein_weight (length cps - 1) i t) snd);
      [|exact Hzip].
    intros k. now apply bernstein_weight_nonneg. }
  rewrite Hsum in Hlow.
  rewrite (sum_from_ext _
             (fun i (pw : Point * R) => Js.bernstein_weight (length cps - 1) i t * snd pw))
    by (intros; ring).
  lra.
Qed.

(** C4: for a Bezier descriptor with control points [P_0 .. P_n] and
    rational weights [w_0 .. w_n] the evaluator returns the Bernstein-weighted
    sum over the control points with the rational weights: the sum of
    [w_i * C(n,i) * t^i * (1-t)^(n-i) * P_i] over the sum of
    [w_i * C(n,i) * t^i * (1-t)^(n-i)], a sum that is positive when the weights
    are positive and [t] lies in [[0, 1]].  A descriptor without rational
    weights is evaluated as one whose weights are all 1; its value is the sum
    of [C(n,i) * t^i * (1-t)^(n-i) * P_i], the point that the front-end Bezier
    evaluator computes, and so is the value of a descriptor whose weights are
    all 1. *)
Theorem evaluate_bezier_bernstein_sum (control_points : list Point)
  (rational_weights : list R) (t : R) :
  control_points <> [] ->
  length rational_weights = length control_points ->
  let n := (length control_points - 1)%nat in
  let b := fun i : nat => INR (Js.binomial n i) * t ^ i * (1 - t) ^ (n - i) in
  let weighted := zip control_points rational_weights in
  let total := Core.sum_from (fun i (pw : Point * R) => snd pw * b i) 0 weighted in
  Core.evaluate (Core.bezier control_points (Some rational_weights)) t
  = (Core.sum_from (fun i (pw : Point * R) => snd pw * b i * fst (fst pw)) 0 weighted / total,
     Core.sum_from (fun i (pw : Point * R) => snd pw * b i * snd (fst pw)) 0 weighted / total)
  /\ (Forall (fun w => 0 < w) rational_weights -> 0 <= t <= 1 -> 0 < total)
  /\ Core.evaluate (Core.bezier control_points None) t
     = Core.evaluate
         (Core.bezier control_points (Some (repeat 1 (length control_points)))) t
  /\ Core.evaluate (Core.bezier control_points None) t
     = (Core.sum_from (fun i p => b i * fst p) 0 control_points,
        Core.sum_from (fun i p => b i * snd p) 0 control_points)
  /\ Core.evaluate (Core.bezier control_points None) t = Js.bezier_point control_points t
  /\ (Forall (fun w => w = 1) rational_weights ->
      Core.evaluate (Core.bezier control_points (Some rational_weights)) t
      = Js.bezier_point control_points t).
Proof.
  intros Hne Hlen n b weighted total.
  split; [|split; [|split; [|split; [|split]]]].
  - cbn [Core.evaluate]. unfold Core.rational_bezier. cbv zeta.
    unfold total, weighted, b, n.
    assert (Htotal :
      Core.sum_from
        (fun i (_ : Point) =>
           Core.weight_at (Some rational_weights) i
           * Core.bernstein (length control_points - 1) i t) 0 control_points
      = Core.sum_from
          (fun i (pw : Point * R) =>
             snd pw * (INR (Js.binomial (length control_points - 1) i) * t ^ i
                       * (1 - t) ^ (length control_points - 1 - i)))
          0 (zip control_points rational_weights)).
    { etransitivity;
        [exact (sum_from_weights
                  (fun i w _ => w * Core.bernstein (length control_points - 1) i t)
                  control_points rational_weights Hlen)|].
      apply sum_from_ext. intros i pw. now rewrite bernstein_weight_entry. }
    f_equal; (apply (f_equal2 Rdiv); [|exact Htotal]).
    + etransitivity;
        [exact (sum_from_weights
                  (fun i w p => w * Core.bernstein (length control_points - 1) i t * fst p)
                  control_points rational_weights Hlen)|].
      apply sum_from_ext. intros i pw. now rewrite bernstein_weight_entry.
    + etransitivity;
        [exact (sum_from_weights
                  (fun i w p => w * Core.bernstein (length control_points - 1) i t * snd p)
                  control_points rational_weights Hlen)|].
      apply sum_from_ext. intros i pw. now rewrite bernstein_weight_entry.
  - intros Hpos Ht. apply (rational_total_positive control_points rational_weights t); assumption.
  - rewrite !evaluate_bezier_unit_weights; auto using weight_at_absent, weight_at_ones.
  - cbn [Core.evaluate].
    now rewrite (rational_bezier_unit_weights _ _ _ Hne weight_at_absent).
  - apply evaluate_bezier_unit_weights; auto using weight_at_absent.
  - intros Hones. apply evaluate_bezier_unit_weights; [assumption|].
    intros i. now apply weight_at_all_ones.
Qed.

(** The control points [(0, 0)] and [(1, 0)] with the weights 1 and 3: at
    [t = 1/2] the heavier end draws the curve to [x = 3/4], where the curve
    without weights is at [x = 1/2]. *)
Lemma evaluate_bezier_bernstein_sum_witness :
  [(0, 0); (1, 0)] <> ([] : list Point)
  /\ length [1; 3] = length [(0, 0); (1, 0)]
  /\ Core.evaluate (Core.bezier [(0, 0); (1, 0)] (Some [1; 3])) (1 / 2) = (3 / 4, 0)
  /\ Core.evaluate (Core.bezier [(0, 0); (1, 0)] None) (1 / 2) = (1 / 2, 0).
Proof.
  assert (Hne : [(0, 0); (1, 0)] <> ([] : list Point)) by discriminate.
  assert (Hlen : length [1; 3] = length [(0, 0); (1, 0)]) by reflexivity.
  split; [exact Hne|]. split; [exact Hlen|].
  destruct (evaluate_bezier_bernstein_sum [(0, 0); (1, 0)] [1; 3] (1 / 2) Hne Hlen)
    as (Hweighted & _ & _ & Hplain & _).
  split.
  - rewrite Hweighted. simpl. f_equal; field.
  - rewrite Hplain. simpl. f_equal; field.
Defined.

(** *** Which landmarks a Bezier curve passes through *)

Lemma sum_from_zero {A : Type} (w : nat -> R) (g : A -> R) (l : list A) (i : nat) :
  (forall k, (i <= k)%nat -> w k = 0) ->
  Core.sum_from (fun k p => w k * g p) i l = 0.
Proof.
  revert i. induction l as [|a l IH]; intros i Hw; simpl.
  - reflexivity.
  - rewrite Hw, IH by (try intros k Hk; try apply Hw; lia). ring.
Qed.

(** When a single weight is 1 and the others vanish, the sum is the point
    under that weight. *)
Lemma sum_from_single {A : Type} (w : nat -> R) (g : A -> R) (l : list A) (i j : nat) (a : A) :
  l !! j = Some a ->
  w (i + j)%nat = 1 ->
  (forall k, k <> (i + j)%nat -> w k = 0) ->
  Core.sum_from (fun k p => w k * g p) i l = g a.
Proof.
  revert i j. induction l as [|b l IH]; intros i j Hj H1 H0; [discriminate|].
  destruct j as [|j]; simpl in *.
  - injection Hj as ->. rewrite Nat.add_0_r in *.
    rewrite H1, sum_from_zero by (intros k Hk; apply H0; lia). ring.
  - rewrite (H0 i) by lia.
    rewrite (IH (S i) j); [ring | assumption | |].
    + now rewrite Nat.add_succ_comm.
    + intros k Hk. apply H0. lia.
Qed.

Lemma bernstein_weight_at_0 (n k : nat) :
  Js.bernstein_weight n k 0 = if decide (k = 0%nat) then 1 else 0.
Proof.
  unfold Js.bernstein_weight. case_decide as Hk.
  - subst. rewrite binomial_0_r, Rminus_0_r, pow1. simpl. ring.
  - rewrite pow_ne_zero by assumption. ring.
Qed.

Lemma bernstein_weight_at_1 (n k : nat) :
  Js.bernstein_weight n k 1 = if decide (k = n) then 1 else 0.
Proof.
  unfold Js.bernstein_weight. case_decide as Hk.
  - subst. rewrite binomial_diag, Nat.sub_diag, pow1. simpl. ring.
  - destruct (decide (k < n)%nat) as [Hlt | Hge].
    + replace (1 - 1) with 0 by ring. rewrite (pow_ne_zero (n - k)) by lia. ring.
    + rewrite binomial_above by lia. simpl. ring.
Qed.

(** C7, as the code has it: a Bezier curve whose control points are the
    landmarks starts at the first landmark ([t = 0]) and ends at the last one
    ([t = 1]); this holds for the front-end evaluator and for the evaluator of
    the specification. *)
Theorem bezier_interpolates_end_landmarks (landmarks : list Point) (p_first p_last : Point) :
  landmarks !! 0%nat = Some p_first ->
  landmarks !! (length landmarks - 1)%nat = Some p_last ->
  Js.bezier_point landmarks 0 = p_first
  /\ Js.bezier_point landmarks 1 = p_last
  /\ Core.evaluate (Core.bezier landmarks None) 0 = p_first
  /\ Core.evaluate (Core.bezier landmarks None) 1 = p_last.
Proof.
  intros Hfirst Hlast.
  assert (Hne : landmarks <> []) by (intros ->; discriminate).
  assert (H0 : Js.bezier_point landmarks 0 = p_first).
  { unfold Js.bezier_point. rewrite bezier_from_sum. cbn [fst snd].
    rewrite (sum_from_single _ fst landmarks 0 0 p_first),
            (sum_from_single _ snd landmarks 0 0 p_first);
      try assumption;
      try (intros k Hk; cbn [Nat.add] in Hk);
      try rewrite bernstein_weight_at_0;
      try (case_decide; [reflexivity || contradiction | reflexivity || contradiction]).
    destruct p_first; cbn [fst snd]. f_equal; ring. }
  assert (H1 : Js.bezier_point landmarks 1 = p_last).
  { unfold Js.bezier_point. rewrite bezier_from_sum. cbn [fst snd].
    rewrite (sum_from_single _ fst landmarks 0 (length landmarks - 1) p_last),
            (sum_from_single _ snd landmarks 0 (length landmarks - 1) p_last);
      try assumption;
      try (intros k Hk; cbn [Nat.add] in Hk);
      try rewrite bernstein_weight_at_1;
      try (case_decide; [reflexivity || contradiction | reflexivity || contradiction]).
    destruct p_last; cbn [fst snd]. f_equal; ring. }
  repeat split; try assumption.
  - rewrite <- H0. now apply evaluate_bezier_unit_weights.
  - rewrite <- H1. now apply evaluate_bezier_unit_weights.
Qed.

Lemma bezier_interpolates_end_landmarks_witness :
  Js.bezier_point [(0, 0); (0, 1); (1, 0)] 0 = (0, 0)
  /\ Js.bezier_point [(0, 0); (0, 1); (1, 0)] 1 = (1, 0)
  /\ Core.evaluate (Core.bezier [(0, 0); (0, 1); (1, 0)] None) 0 = (0, 0)
  /\ Core.evaluate (Core.bezier [(0, 0); (0, 1); (1, 0)] None) 1 = (1, 0).
Proof.
  apply (bezier_interpolates_end_landmarks [(0, 0); (0, 1); (1, 0)] (0, 0) (1, 0));
    reflexivity.
Defined.

(** The landmarks [(0,0)], [(0,1)], [(1,0)] taken as control points: the
    middle landmark has the parameter value [1/2], where the curve is at
    [(1/4, 1/2)]. *)
Lemma bezier_misses_interior_landmark :
  let landmarks := [(0, 0); (0, 1); (1, 0)] in
  landmarks !! 1%nat = Some (0, 1)
  /\ Js.bezier_point landmarks (INR 1 / INR (length landmarks - 1)) = (1 / 4, 1 / 2)
  /\ Core.evaluate (Core.bezier landmarks None) (INR 1 / INR (length landmarks - 1))
     = (1 / 4, 1 / 2)
  /\ Js.bezier_point landmarks (INR 1 / INR (length landmarks - 1)) <> (0, 1).
Proof.
  cbv zeta.
  assert (H : Js.bezier_point [(0, 0); (0, 1); (1, 0)] (INR 1 / INR (3 - 1)) = (1 / 4, 1 / 2)).
  { unfold Js.bezier_point, Js.bezier_from, Js.bernstein_weight. simpl. f_equal; field. }
  split; [reflexivity|]. split; [exact H|]. split.
  - rewrite evaluate_bezier_unit_weights; [exact H | discriminate | reflexivity].
  - change (length [(0, 0); (0, 1); (1, 0)]) with 3%nat. rewrite H.
    intros Heq. apply (f_equal fst) in Heq. simpl in Heq. lra.
Qed.

(** ** Loops over a real parameter *)

Section ForT.

Variables step bound : R.
Hypothesis step_pos : 0 < step.

Lemma for_t_spec (fuel : nat) (t u : R) :
  bound < t + INR fuel * step ->
  In u (Js.for_t fuel t step bound)
  <-> exists k : nat, u = t + INR k * step /\ u <= bound.
Proof.
  revert t. induction fuel as [|fuel IH]; intros t Hfuel.
  - simpl in *. split; [tauto|]. intros (k & -> & Hle).
    pose proof (pos_INR k). nra.
  - cbn [Js.for_t]. destruct (Rle_dec t bound) as [Hle | Hgt].
    + cbn [In]. rewrite IH by (rewrite S_INR in Hfuel; lra). split.
      * intros [<- | (k & -> & Hk)].
        -- exists 0%nat. simpl. split; [ring | assumption].
        -- exists (S k). rewrite S_INR. split; [ring | assumption].
      * intros ([|k] & -> & Hk).
        -- left. simpl. ring.
        -- right. exists k. rewrite S_INR in *. split; [ring | assumption].
    + split; [contradiction|]. intros (k & -> & Hle).
      pose proof (pos_INR k). nra.
Qed.

Lemma INR_to_nat_ge (z : Z) : IZR z <= INR (Z.to_nat z).
Proof.
  destruct (Z_lt_le_dec z 0) as [Hneg | Hpos].
  - rewrite Z2Nat.nonpos by lia. simpl. apply IZR_le. lia.
  - rewrite INR_IZR_INZ, Z2Nat.id by assumption. lra.
Qed.

(** The fuel of [t_values] is enough: the list holds every multiple of the
    step up to the bound, so the loop stopped on its own test. *)
Lemma t_values_spec (u : R) :
  In u (Js.t_values step bound)
  <-> exists k : nat, u = INR k * step /\ u <= bound.
Proof.
  unfold Js.t_values. rewrite for_t_spec.
  - split; intros (k & -> & Hk); exists k; (split; [ring | lra]).
  - rewrite plus_INR. simpl.
    pose proof (INR_to_nat_ge (up (bound / step))) as Hup.
    destruct (archimed (bound / step)) as [Hgt _].
    assert (Hq : bound / step * step = bound) by (field; lra).
    nra.
Qed.

End ForT.

(** The samples of [evaluateBezierCurve] are the curve points at the
    multiples of [1 / numPoints] from 0 to 1. *)
Lemma evaluateBezierCurve_samples (controlPoints : list Point) (numPoints : nat) (p : Point) :
  (0 < numPoints)%nat ->
  In p (Js.evaluateBezierCurve controlPoints numPoints)
  <-> exists k : nat, (k <= numPoints)%nat
        /\ p = Js.bezier_point controlPoints (INR k * (1 / INR numPoints)).
Proof.
  intros Hn. apply lt_0_INR in Hn.
  assert (Hstep : 0 < 1 / INR numPoints) by (apply Rdiv_lt_0_compat; lra).
  unfold Js.evaluateBezierCurve. rewrite in_map_iff. split.
  - intros (u & <- & Hu). apply t_values_spec in Hu; [|assumption].
    destruct Hu as (k & -> & Hk). exists k. split; [|reflexivity].
    apply INR_le. apply (Rmult_le_compat_r (INR numPoints)) in Hk; [|lra].
    replace (INR k * (1 / INR numPoints) * INR numPoints) with (INR k) in Hk by (field; lra).
    lra.
  - intros (k & Hk & ->). exists (INR k * (1 / INR numPoints)). split; [reflexivity|].
    apply t_values_spec; [assumption|]. exists k. split; [reflexivity|].
    apply le_INR in Hk. apply (Rmult_le_reg_r (INR numPoints)); [assumption|].
    replace (INR k * (1 / INR numPoints) * INR numPoints) with (INR k) by (field; lra).
    lra.
Qed.

(** ** The ellipse of the eyes *)

(** Every point that [generateFeaturePoints] emits for a [parametric_eye]
    equation is the evaluator's point of the same ellipse at a parameter
    between 0 and [2 * pi], a multiple of 0.1. *)
Lemma eye_points_on_ellipse (feature : string) (center : Point) (a b theta : R)
  (p : FeaturePoint) :
  In p (Js.eye_points feature center a b theta) ->
  exists k : nat,
    let t := INR k * (1 / 10) in
    0 <= t <= 2 * PI
    /\ (fp_x p, fp_y p) = Core.evaluate (Core.parametric_ellipse center a b theta) t
    /\ fp_type p = curve /\ fp_feature p = feature.
Proof.
  unfold Js.eye_points. rewrite in_map_iff. intros (t & <- & Ht).
  apply t_values_spec in Ht; [|lra]. destruct Ht as (k & -> & Hk).
  exists k. cbv zeta. pose proof (pos_INR k). repeat split; try assumption. lra.
Qed.

(** C5: for a parametric ellipse with centre [(cx, cy)], semi-axes [a] and
    [b] and rotation [theta] the evaluator returns
    [x = cx + a cos t cos theta - b sin t sin theta] and
    [y = cy + a cos t sin theta + b sin t cos theta] for every parameter [t]
    (those of [[0, 2 pi)] among them); the [parametric_eye] case of the front
    end computes the same point, and every point it emits is the evaluator's
    at a parameter between 0 and [2 pi]. *)
Theorem evaluate_parametric_ellipse (cx cy a b theta t : R) (feature : string) :
  Core.evaluate (Core.parametric_ellipse (cx, cy) a b theta) t
  = (cx + a * cos t * cos theta - b * sin t * sin theta,
     cy + a * cos t * sin theta + b * sin t * cos theta)
  /\ Js.eye_point (cx, cy) a b theta t
     = Core.evaluate (Core.parametric_ellipse (cx, cy) a b theta) t
  /\ exists points : list FeaturePoint,
       Js.generateFeaturePoints feature
         {| fe_type := "parametric_eye"; fe_payload := eye_parameters (cx, cy) a b theta |}
       = ([], Normal points)
       /\ forall p, In p points ->
            exists u : R,
              0 <= u <= 2 * PI
              /\ (fp_x p, fp_y p)
                 = Core.evaluate (Core.parametric_ellipse (cx, cy) a b theta) u.
Proof.
  split; [reflexivity|]. split; [reflexivity|].
  exists (Js.eye_points feature (cx, cy) a b theta). split; [reflexivity|].
  intros p Hp. apply eye_points_on_ellipse in Hp.
  destruct Hp as (k & Hrange & Hpoint & _). eauto.
Qed.

(** ** Equation types *)

(** C6, as the code has it: an equation whose type is none of the four
    that [generateFeaturePoints] handles takes the default branch, which
    prints a warning that names the type and returns an empty list of points;
    nothing is thrown and no curve of another type is drawn. *)
Theorem generateFeaturePoints_unknown_type (feature : string) (equation : FeatureEquation) :
  ~ In (fe_type equation)
       ["piecewise_spline"; "parametric_eye"; "composite_lips"; "hermite_spline"] ->
  Js.generateFeaturePoints feature equation
  = (["Unknown equation type: " +:+ fe_type equation], Normal []).
Proof.
  intros Hnot. unfold Js.generateFeaturePoints.
  repeat match goal with
         | |- context [String.eqb ?s ?tag] =>
             destruct (String.eqb_spec s tag) as [Heq | _];
             [exfalso; apply Hnot; rewrite Heq; simpl; tauto|]
         end.
  reflexivity.
Qed.

Lemma generateFeaturePoints_unknown_type_witness :
  Js.generateFeaturePoints "nose_tip" {| fe_type := "polynomial"; fe_payload := no_payload |}
  = (["Unknown equation type: polynomial"], Normal []).
Proof.
  apply (generateFeaturePoints_unknown_type "nose_tip"
           {| fe_type := "polynomial"; fe_payload := no_payload |}).
  simpl. intros [H | [H | [H | [H | []]]]]; discriminate H.
Defined.

(** An equation of the type [spiral] is not rejected with an error, and the
    type [auto] is reported as unknown like any other. *)
Lemma generateFeaturePoints_raises_no_error :
  (~ exists e : JsError,
       snd (Js.generateFeaturePoints "jawline" {| fe_type := "spiral"; fe_payload := no_payload |})
       = Throw e)
  /\ Js.generateFeaturePoints "jawline" {| fe_type := "auto"; fe_payload := no_payload |}
     = (["Unknown equation type: auto"], Normal []).
Proof.
  split; [|reflexivity]. intros [e He]. discriminate He.
Qed.

(** [EquationGraph] has no warning: with coefficients present, a type that
    is neither [polynomial] nor [trigonometric] is drawn as the line [y = 0]. *)
Lemma graph_value_other_type (equations : Equation) (coefficients : list R) (x : R) :
  eq_type equations <> "polynomial" ->
  eq_type equations <> "trigonometric" ->
  Js.graph_value equations coefficients x = Normal (Some 0).
Proof.
  intros Hp Ht. unfold Js.graph_value.
  destruct (String.eqb_spec (eq_type equations) "polynomial"); [contradiction|].
  destruct (String.eqb_spec (eq_type equations) "trigonometric"); [contradiction|].
  reflexivity.
Qed.

(** ** Missing data *)

(** [generateCurvePoints] returns the empty list when [data], its
    [equations] or the entry of the selected feature is missing. *)
Lemma generateCurvePoints_no_equation (data : option FaceData) (selectedFeature : string) :
  (data ≫= equations) ≫= (fun eqs : gmap string Equation => eqs !! selectedFeature) = None ->
  Js.generateCurvePoints data selectedFeature = Normal [].
Proof.
  unfold Js.generateCurvePoints. destruct data as [d|]; [|reflexivity].
  cbn. now intros ->.
Qed.

(** [generatePlotData] returns the empty list when [landmarks] or
    [equations] is missing or has no entry for the selected feature. *)
Lemma generatePlotData_missing
  (lms : option (gmap string (list Point))) (eqs : option (gmap string Equation))
  (selectedFeature : string) :
  lms ≫= (fun m : gmap string (list Point) => m !! selectedFeature) = None
  \/ eqs ≫= (fun m : gmap string Equation => m !! selectedFeature) = None ->
  Js.generatePlotData lms eqs selectedFeature = Normal [].
Proof.
  unfold Js.generatePlotData.
  destruct lms as [l|], eqs as [e|]; cbn; try reflexivity.
  intros [-> | ->]; [reflexivity|]. now destruct (l !! selectedFeature).
Qed.

(** C10: a response that carries the equation of the jawline but no
    [landmarks] object.  [generatePlotData] returns the empty list for it;
    [generateCurvePoints] has no test of [landmarks], computes the curve and
    then throws on [data.landmarks[selectedFeature]]. *)
Theorem generateCurvePoints_throws_without_landmarks :
  let equation :=
    {| eq_type := "polynomial"; eq_equation := "y = 1";
       eq_coefficients := Some [1]; eq_parameters := None |} in
  let data := {| landmarks := None; equations := Some {[ "jawline" := equation ]} |} in
  Js.generateCurvePoints (Some data) "jawline" = Throw TypeError
  /\ Js.generatePlotData (landmarks data) (equations data) "jawline" = Normal [].
Proof.
  cbv zeta. split; [|reflexivity].
  unfold Js.generateCurvePoints. cbn [equations landmarks mbind option_bind].
  rewrite lookup_singleton_eq. reflexivity.
Qed.

(** ** The requested degree *)

(** The text [50] in the degree input: the form carries the degree 50, which
    lies outside the range from 1 to 10, so that requests with such degrees
    do reach the request handling. *)
Lemma upload_form_degree_50 :
  form_degree (Js.uploadForm "polynomial" (Js.onDegreeChange "50")) = Num 50
  /\ ~ (1 <= 50 <= 10)%Z.
Proof.
  split; [reflexivity | lia].
Qed.

Lemma clamp_degree_range (degree : Z) : (1 <= Core.clamp_degree degree <= 10)%Z.
Proof. unfold Core.clamp_degree. lia. Qed.

(** A point set with fewer than 3 points is refused for its size, whatever
    degree the request asks for. *)
Lemma polynomial_degree_few_points (requested_degree : Z) (num_points : nat) :
  (num_points < 3)%nat ->
  Core.polynomial_degree requested_degree num_points = inl Core.InsufficientPointsError.
Proof.
  intros Hn. unfold Core.polynomial_degree.
  destruct (Nat.ltb_spec num_points 3); [reflexivity | lia].
Qed.



(** ** Least-squares fits of growing degree *)

Section LeastSquares.

Variable points : list Point.










End LeastSquares.





(** * Further properties of the components *)

(** ** The polynomial charts *)

Lemma horner_at_0 (cs : list R) : Core.horner cs 0 = List.last cs 0.
Proof.
  induction cs as [|c cs IH]; [reflexivity|].
  rewrite horner_cons, IH. destruct cs as [|c' cs].
  - simpl. unfold Core.horner. simpl. ring.
  - cbn [length List.last]. rewrite pow_ne_zero by lia. ring.
Qed.

Lemma horner_at_1 (cs : list R) : Core.horner cs 1 = fold_right Rplus 0 cs.
Proof.
  induction cs as [|c cs IH]; [reflexivity|].
  rewrite horner_cons, IH, pow1. simpl. ring.
Qed.

Lemma curve_samples_lookup (numPoints : nat) (cs : list R) (i : nat) :
  (i <= numPoints)%nat ->
  Js.curve_samples numPoints cs !! i
  = Some {| pp_x := INR i / INR numPoints;
            pp_y := Js.power_sum cs (INR i / INR numPoints);
            pp_type := curve |}.
Proof.
  intros Hi. unfold Js.curve_samples.
  change (map ?f) with (fmap (M := list) f).
  rewrite list_lookup_fmap, lookup_seq_lt by lia. reflexivity.
Qed.

Lemma curve_samples_length (numPoints : nat) (cs : list R) :
  length (Js.curve_samples numPoints cs) = S numPoints.
Proof. unfold Js.curve_samples. now rewrite length_map, length_seq. Qed.

(** X1: the sampled polynomial curve has [numPoints + 1] points; it starts
    at [x = 0] with the constant term, the last coefficient (0 when there is
    none), and ends at [x = 1] with the sum of the coefficients. *)
Theorem curve_samples_ends (numPoints : nat) (coefficients : list R) :
  (0 < numPoints)%nat ->
  length (Js.curve_samples numPoints coefficients) = S numPoints
  /\ exists p0 p1 : PlotPoint,
       Js.curve_samples numPoints coefficients !! 0%nat = Some p0
       /\ Js.curve_samples numPoints coefficients !! numPoints = Some p1
       /\ pp_x p0 = 0 /\ pp_y p0 = List.last coefficients 0
       /\ pp_x p1 = 1 /\ pp_y p1 = fold_right Rplus 0 coefficients.
Proof.
  intros Hn. apply lt_0_INR in Hn.
  split; [apply curve_samples_length|].
  eexists. eexists.
  split; [apply curve_samples_lookup; lia|].
  split; [apply curve_samples_lookup; lia|].
  cbn [pp_x pp_y].
  assert (H0 : INR 0 / INR numPoints = 0) by (simpl; field; lra).
  assert (H1 : INR numPoints / INR numPoints = 1) by (field; lra).
  rewrite H0, H1, <- !horner_power_sum, horner_at_0, horner_at_1. tauto.
Qed.

Lemma curve_samples_ends_witness :
  (0 < 100)%nat /\ length (Js.curve_samples 100 [1; 2]) = 101%nat.
Proof.
  split; [lia|]. apply (curve_samples_ends 100 [1; 2]). lia.
Defined.

Lemma line_data_curve_samples (numPoints : nat) (cs : list R) :
  FeatureVisualizer.line_data curve (Js.curve_samples numPoints cs) = Js.curve_samples numPoints cs
  /\ FeatureVisualizer.line_data point (Js.curve_samples numPoints cs) = [].
Proof.
  unfold FeatureVisualizer.line_data, Js.curve_samples.
  induction (seq 0 (S numPoints)) as [|i l [IHc IHp]]; [split; reflexivity|].
  cbn [map List.filter FeatureVisualizer.has_type pp_type]. now rewrite IHc, IHp.
Qed.

Lemma line_data_landmark_points (pts : list Point) :
  FeatureVisualizer.line_data point (Js.landmark_points pts) = Js.landmark_points pts
  /\ FeatureVisualizer.line_data curve (Js.landmark_points pts) = [].
Proof.
  unfold FeatureVisualizer.line_data, Js.landmark_points.
  induction pts as [|p l [IHp IHc]]; [split; reflexivity|].
  cbn [map List.filter FeatureVisualizer.has_type pp_type]. now rewrite IHc, IHp.
Qed.

Lemma line_data_app (kind : PointKind) (a b : list PlotPoint) :
  FeatureVisualizer.line_data kind (a ++ b)
  = FeatureVisualizer.line_data kind a ++ FeatureVisualizer.line_data kind b.
Proof. apply List.filter_app. Qed.

Lemma landmark_points_length (pts : list Point) :
  length (Js.landmark_points pts) = length pts.
Proof. apply length_map. Qed.

(** X2: when the selected feature has landmarks and an equation with
    coefficients, [generatePlotData] returns 101 curve points followed by one
    point per landmark; the two filters of the chart split it back into the
    curve and the landmarks. *)
Theorem generatePlotData_lines
  (lms : gmap string (list Point)) (eqs : gmap string Equation) (feature : string)
  (pts : list Point) (equation : Equation) (coefficients : list R) :
  lms !! feature = Some pts ->
  eqs !! feature = Some equation ->
  eq_coefficients equation = Some coefficients ->
  exists data : list PlotPoint,
    Js.generatePlotData (Some lms) (Some eqs) feature = Normal data
    /\ length data = (101 + length pts)%nat
    /\ FeatureVisualizer.line_data curve data = Js.curve_samples 100 coefficients
    /\ FeatureVisualizer.line_data point data = Js.landmark_points pts.
Proof.
  intros Hl He Hc. eexists. split.
  - unfold Js.generatePlotData. rewrite Hl, He, Hc. reflexivity.
  - destruct (line_data_curve_samples 100 coefficients) as [Hcc Hcp].
    destruct (line_data_landmark_points pts) as [Hpp Hpc].
    rewrite !line_data_app, Hcc, Hcp, Hpp, Hpc, app_nil_r.
    rewrite length_app, curve_samples_length, landmark_points_length.
    split; [lia|]. split; reflexivity.
Qed.

Lemma generatePlotData_lines_witness :
  exists data : list PlotPoint,
    Js.generatePlotData
      (Some {[ "jawline" := [(0, 0); (1, 1)] ]})
      (Some {[ "jawline" := {| eq_type := "polynomial"; eq_equation := "y = x";
                               eq_coefficients := Some [1; 0]; eq_parameters := None |} ]})
      "jawline" = Normal data
    /\ length data = 103%nat.
Proof.
  destruct (generatePlotData_lines
              {[ "jawline" := [(0, 0); (1, 1)] ]}
              {[ "jawline" := {| eq_type := "polynomial"; eq_equation := "y = x";
                                 eq_coefficients := Some [1; 0]; eq_parameters := None |} ]}
              "jawline" [(0, 0); (1, 1)]
              {| eq_type := "polynomial"; eq_equation := "y = x";
                 eq_coefficients := Some [1; 0]; eq_parameters := None |}
              [1; 0])
    as (data & Hdata & Hlen & _).
  - apply lookup_singleton_eq.
  - apply lookup_singleton_eq.
  - reflexivity.
  - exists data. split; [exact Hdata | exact Hlen].
Defined.

(** X3: [generateCurvePoints] and [generatePlotData] return the same on the
    same data whenever the selected feature has landmarks or has no equation. *)
Theorem generateCurvePoints_agrees_generatePlotData (d : FaceData) (feature : string) :
  is_Some (landmarks d ≫= (fun m : gmap string (list Point) => m !! feature))
  \/ equations d ≫= (fun m : gmap string Equation => m !! feature) = None ->
  Js.generateCurvePoints (Some d) feature
  = Js.generatePlotData (landmarks d) (equations d) feature.
Proof.
  unfold Js.generateCurvePoints, Js.generatePlotData.
  destruct (landmarks d) as [lms|], (equations d) as [eqs|]; cbn.
  - destruct (lms !! feature) as [pts|], (eqs !! feature) as [e|]; cbn; try reflexivity.
    intros [[? [=]] | [=]].
  - reflexivity.
  - destruct (eqs !! feature) as [e|]; [|reflexivity].
    intros [[? [=]] | [=]].
  - reflexivity.
Qed.

Lemma generateCurvePoints_agrees_generatePlotData_witness :
  let d := {| landmarks := Some {[ "jawline" := [(0, 0)] ]}; equations := None |} in
  Js.generateCurvePoints (Some d) "jawline"
  = Js.generatePlotData (landmarks d) (equations d) "jawline".
Proof.
  cbv zeta.
  apply (generateCurvePoints_agrees_generatePlotData
           {| landmarks := Some {[ "jawline" := [(0, 0)] ]}; equations := None |} "jawline").
  right. reflexivity.
Defined.

(** X4: [generatePlotData] throws exactly when the selected feature has
    landmarks and an equation, and the equation has no [coefficients]. *)
Theorem generatePlotData_throws_iff
  (lms : option (gmap string (list Point))) (eqs : option (gmap string Equation))
  (feature : string) (e : JsError) :
  Js.generatePlotData lms eqs feature = Throw e
  <-> exists (l : gmap string (list Point)) (q : gmap string Equation)
             (pts : list Point) (equation : Equation),
        lms = Some l /\ eqs = Some q
        /\ l !! feature = Some pts /\ q !! feature = Some equation
        /\ eq_coefficients equation = None.
Proof.
  unfold Js.generatePlotData. split.
  - destruct lms as [l|], eqs as [q|]; try discriminate.
    destruct (l !! feature) as [pts|] eqn:Hl; [|discriminate].
    destruct (q !! feature) as [equation|] eqn:Hq; [|discriminate].
    destruct (eq_coefficients equation) as [cs|] eqn:Hc; [discriminate|].
    intros _. exists l, q, pts, equation. auto.
  - intros (l & q & pts & equation & -> & -> & Hl & Hq & Hc).
    rewrite Hl, Hq, Hc. destruct e. reflexivity.
Qed.

(** ** [EquationGraph] *)

Lemma mapM_Normal_ext {A B : Type} (f : A -> Completion B) (g : A -> B) (l : list A) :
  (forall a, f a = Normal (g a)) -> mapM f l = Normal (map g l).
Proof.
  intros Hfg. induction l as [|a l IH]; [reflexivity|].
  cbn [mapM map]. rewrite Hfg, IH. reflexivity.
Qed.

Lemma mapM_Throw {A B : Type} (f : A -> Completion B) (e : JsError) (a : A) (l : list A) :
  f a = Throw e -> mapM f (a :: l) = Throw e.
Proof. intros Hf. cbn [mapM]. now rewrite Hf. Qed.

(** X5: what [generateGraphPoints] returns.  It throws only for a
    trigonometric equation that has coefficients but no parameters; it
    returns the empty list when the equation or its [coefficients] is missing
    (also for a trigonometric equation with parameters); otherwise it returns
    101 points over the abscissas [i / 100]. *)
Theorem generateGraphPoints_outcome (equations : option Equation) :
  match Js.generateGraphPoints equations with
  | Throw _ =>
      exists (e : Equation) (cs : list R),
        equations = Some e /\ eq_coefficients e = Some cs
        /\ eq_type e = "trigonometric" /\ eq_parameters e = None
  | Normal pts =>
      (pts = []
       /\ (equations = None
           \/ exists e : Equation, equations = Some e /\ eq_coefficients e = None))
      \/ (map gp_x pts = map (fun i : nat => INR i / INR 100) (seq 0 101)
          /\ exists (e : Equation) (cs : list R),
               equations = Some e /\ eq_coefficients e = Some cs
               /\ (eq_type e = "trigonometric" -> is_Some (eq_parameters e)))
  end.
Proof.
  unfold Js.generateGraphPoints.
  destruct equations as [e|]; [|left; auto].
  destruct (eq_coefficients e) as [cs|] eqn:Hcs; [|left; eauto].
  destruct (String.eqb_spec (eq_type e) "polynomial") as [Hpoly | Hpoly].
  - rewrite (mapM_Normal_ext _
               (fun i : nat => {| gp_x := INR i / INR 100;
                                  gp_y := Some (Js.power_sum cs (INR i / INR 100)) |})).
    + right. rewrite map_map. split; [reflexivity|].
      exists e, cs. repeat split; try assumption. rewrite Hpoly. discriminate.
    + intros i. unfold Js.graph_value. rewrite Hpoly. reflexivity.
  - destruct (String.eqb_spec (eq_type e) "trigonometric") as [Htrig | Htrig].
    + destruct (eq_parameters e) as [params|] eqn:Hparams.
      * rewrite (mapM_Normal_ext _
                   (fun i : nat => {| gp_x := INR i / INR 100;
                                      gp_y := Js.trig_series params (INR i / INR 100) |})).
        -- right. rewrite map_map. split; [reflexivity|].
           exists e, cs. repeat split; eauto.
        -- intros i. unfold Js.graph_value. rewrite Htrig, Hparams. reflexivity.
      * change (seq 0 101) with (0%nat :: seq 1 100).
        rewrite (mapM_Throw _ TypeError).
        -- exists e, cs. auto.
        -- unfold Js.graph_value. rewrite Htrig, Hparams. reflexivity.
    + rewrite (mapM_Normal_ext _ (fun i : nat => {| gp_x := INR i / INR 100; gp_y := Some 0 |})).
      * right. rewrite map_map. split; [reflexivity|].
        exists e, cs. repeat split; try assumption. contradiction.
      * intros i. rewrite graph_value_other_type by assumption. reflexivity.
Qed.

(** X6: with coefficients present, an equation whose type is neither
    [polynomial] nor [trigonometric] (the type [fourier] of the form, say) is
    drawn as 101 points on the line [y = 0], without any warning. *)
Theorem generateGraphPoints_other_type_flat (e : Equation) (cs : list R) :
  eq_coefficients e = Some cs ->
  eq_type e <> "polynomial" ->
  eq_type e <> "trigonometric" ->
  Js.generateGraphPoints (Some e)
  = Normal (map (fun i : nat => {| gp_x := INR i / INR 100; gp_y := Some 0 |}) (seq 0 101)).
Proof.
  intros Hcs Hp Ht. unfold Js.generateGraphPoints. rewrite Hcs.
  apply mapM_Normal_ext. intros i. now rewrite graph_value_other_type.
Qed.

Lemma generateGraphPoints_other_type_flat_witness :
  Js.generateGraphPoints
    (Some {| eq_type := "fourier"; eq_equation := ""; eq_coefficients := Some [1; 2];
             eq_parameters := None |})
  = Normal (map (fun i : nat => {| gp_x := INR i / INR 100; gp_y := Some 0 |}) (seq 0 101)).
Proof.
  apply (generateGraphPoints_other_type_flat
           {| eq_type := "fourier"; eq_equation := ""; eq_coefficients := Some [1; 2];
              eq_parameters := None |} [1; 2]);
    [reflexivity | discriminate | discriminate].
Defined.

(** X7: for a polynomial equation [EquationGraph] draws the points of the
    other charts: the samples of [curve_samples] with 100 steps. *)
Theorem generateGraphPoints_polynomial (e : Equation) (cs : list R) :
  eq_type e = "polynomial" ->
  eq_coefficients e = Some cs ->
  Js.generateGraphPoints (Some e)
  = Normal (map (fun p : PlotPoint => {| gp_x := pp_x p; gp_y := Some (pp_y p) |})
                (Js.curve_samples 100 cs)).
Proof.
  intros Htype Hcs. unfold Js.generateGraphPoints, Js.curve_samples.
  rewrite Hcs, map_map. apply mapM_Normal_ext.
  intros i. unfold Js.graph_value. rewrite Htype. reflexivity.
Qed.

Lemma generateGraphPoints_polynomial_witness :
  Js.generateGraphPoints
    (Some {| eq_type := "polynomial"; eq_equation := ""; eq_coefficients := Some [1; 2];
             eq_parameters := None |})
  = Normal (map (fun p : PlotPoint => {| gp_x := pp_x p; gp_y := Some (pp_y p) |})
                (Js.curve_samples 100 [1; 2])).
Proof.
  apply (generateGraphPoints_polynomial
           {| eq_type := "polynomial"; eq_equation := ""; eq_coefficients := Some [1; 2];
              eq_parameters := None |} [1; 2]); reflexivity.
Defined.

Section TrigonometricShape.

Variable x : R.

Lemma sin_odd_shift (k : nat) (a : R) :
  sin (INR (2 * k + 1) * PI * (a + 1)) = - sin (INR (2 * k + 1) * PI * a).
Proof.
  replace (INR (2 * k + 1) * PI * (a + 1))
    with (INR (2 * k + 1) * PI * a + PI + 2 * INR k * PI)
    by (rewrite plus_INR, mult_INR; simpl; ring).
  rewrite sin_period. apply neg_sin.
Qed.

Lemma cos_odd_shift (k : nat) (a : R) :
  cos (INR (2 * k + 1) * PI * (a + 1)) = - cos (INR (2 * k + 1) * PI * a).
Proof.
  replace (INR (2 * k + 1) * PI * (a + 1))
    with (INR (2 * k + 1) * PI * a + PI + 2 * INR k * PI)
    by (rewrite plus_INR, mult_INR; simpl; ring).
  rewrite cos_period. apply neg_cos.
Qed.

Lemma index_harmonic_sum_shift (pairs : list (R * R)) (k : nat) :
  Js.index_harmonic_sum (2 * k + 1) pairs (x + 1)
  = - Js.index_harmonic_sum (2 * k + 1) pairs x.
Proof.
  revert k. induction pairs as [|[s c] pairs IH]; intros k; cbn [Js.index_harmonic_sum].
  - ring.
  - replace (2 * k + 1 + 2)%nat with (2 * S k + 1)%nat by lia.
    rewrite IH, sin_odd_shift, cos_odd_shift. ring.
Qed.

Lemma index_harmonic_sum_at_0 (pairs : list (R * R)) (j : nat) :
  Js.index_harmonic_sum j pairs 0 = fold_right Rplus 0 (map snd pairs).
Proof.
  revert j. induction pairs as [|[s c] pairs IH]; intros j; cbn [Js.index_harmonic_sum].
  - reflexivity.
  - rewrite IH, Rmult_0_r, sin_0, cos_0. simpl. ring.
Qed.

End TrigonometricShape.

(** X8: a parameter left without partner at the end of the array does not
    change the series. *)
Theorem trig_series_unpaired_tail (offset : R) (pairs : list (R * R)) (s x : R) :
  Js.trig_series (offset :: flat_map (fun p : R * R => [fst p; snd p]) pairs ++ [s]) x
  = Js.trig_series (offset :: flat_map (fun p : R * R => [fst p; snd p]) pairs) x.
Proof.
  unfold Js.trig_series. now rewrite trig_sum_from_odd_tail, trig_sum_from_pairs.
Qed.

(** X9: the series that [EquationGraph] draws holds odd multiples of
    [pi * x] only, so a shift of [x] by 1 mirrors it about the offset:
    [y(x + 1) = 2 * offset - y(x)]. *)
Theorem trig_series_half_wave (offset : R) (pairs : list (R * R)) (x : R) :
  Js.trig_series (offset :: flat_map (fun p : R * R => [fst p; snd p]) pairs) (x + 1)
  = option_map (fun y => 2 * offset - y)
      (Js.trig_series (offset :: flat_map (fun p : R * R => [fst p; snd p]) pairs) x).
Proof.
  unfold Js.trig_series. rewrite !trig_sum_from_pairs. cbn [option_map]. f_equal.
  pose proof (index_harmonic_sum_shift x pairs 0) as Hshift.
  cbn [Nat.mul Nat.add] in Hshift. rewrite Hshift. ring.
Qed.

(** X10: at [x = 0] the series is the offset plus the sum of the cosine
    coefficients. *)
Theorem trig_series_at_0 (offset : R) (pairs : list (R * R)) :
  Js.trig_series (offset :: flat_map (fun p : R * R => [fst p; snd p]) pairs) 0
  = Some (offset + fold_right Rplus 0 (map snd pairs)).
Proof.
  unfold Js.trig_series. now rewrite trig_sum_from_pairs, index_harmonic_sum_at_0.
Qed.

(** ** More on the Bezier evaluator *)

(** X11: for [k <= n] the recursive [binomial] is the binomial coefficient:
    [binomial n k * k! * (n - k)! = n!]. *)
Theorem binomial_factorial (n k : nat) :
  (k <= n)%nat ->
  (Js.binomial n k * fact k * fact (n - k) = fact n)%nat.
Proof.
  intros Hk. apply INR_eq. rewrite !mult_INR, binomial_C by assumption.
  unfold C. field. split; apply INR_fact_neq_0.
Qed.

Lemma binomial_factorial_witness :
  (2 <= 5)%nat /\ (Js.binomial 5 2 * fact 2 * fact (5 - 2) = fact 5)%nat.
Proof.
  split; [lia|]. apply (binomial_factorial 5 2). lia.
Defined.

Lemma binomial_symmetric (n k : nat) :
  (k <= n)%nat -> Js.binomial n (n - k) = Js.binomial n k.
Proof.
  intros Hk. apply INR_eq. rewrite !binomial_C by lia.
  symmetry. now apply pascal_step1.
Qed.

Section BezierShape.

(** A sum with weights that are not negative lies between the smallest and
    the largest term, scaled by the sum of the weights. *)
Lemma sum_from_between {A : Type} (w : nat -> R) (g : A -> R) (lo hi : R) (l : list A) (i : nat) :
  (forall k, 0 <= w k) ->
  Forall (fun a => lo <= g a <= hi) l ->
  lo * Core.sum_from (fun k (_ : A) => w k) i l
  <= Core.sum_from (fun k a => w k * g a) i l
  <= hi * Core.sum_from (fun k (_ : A) => w k) i l.
Proof.
  intros Hw Hl. revert i. induction Hl as [|a l [Hlo Hhi] _ IH]; intros i; simpl.
  - lra.
  - specialize (IH (S i)). pose proof (Hw i). nra.
Qed.

Lemma bezier_point_between (cps : list Point) (t lo_x hi_x lo_y hi_y : R) :
  cps <> [] ->
  0 <= t <= 1 ->
  Forall (fun p : Point => lo_x <= fst p <= hi_x) cps ->
  Forall (fun p : Point => lo_y <= snd p <= hi_y) cps ->
  lo_x <= fst (Js.bezier_point cps t) <= hi_x
  /\ lo_y <= snd (Js.bezier_point cps t) <= hi_y.
Proof.
  intros Hne Ht Hx Hy. unfold Js.bezier_point. rewrite bezier_from_sum. cbn [fst snd].
  pose proof (bernstein_weights_total t cps Hne) as Htotal.
  pose proof (sum_from_between (A := Point)
                (fun k => Js.bernstein_weight (length cps - 1) k t)
                fst lo_x hi_x cps 0 (fun k => bernstein_weight_nonneg _ k t Ht) Hx) as Bx.
  pose proof (sum_from_between (A := Point)
                (fun k => Js.bernstein_weight (length cps - 1) k t)
                snd lo_y hi_y cps 0 (fun k => bernstein_weight_nonneg _ k t Ht) Hy) as By.
  cbn beta in Bx, By. rewrite Htotal in Bx, By.
  destruct Bx as [Bx1 Bx2], By as [By1 By2]. rewrite !Rplus_0_l.
  repeat split.
  - eapply Rle_trans; [|exact Bx1]. lra.
  - eapply Rle_trans; [exact Bx2|]. lra.
  - eapply Rle_trans; [|exact By1]. lra.
  - eapply Rle_trans; [exact By2|]. lra.
Qed.

Lemma sum_from_app {A : Type} (f : nat -> A -> R) (l1 l2 : list A) (i : nat) :
  Core.sum_from f i (l1 ++ l2)
  = Core.sum_from f i l1 + Core.sum_from f (i + length l1) l2.
Proof.
  revert i. induction l1 as [|a l1 IH]; intros i; simpl.
  - rewrite Nat.add_0_r. ring.
  - rewrite IH. replace (S i + length l1)%nat with (i + S (length l1))%nat by lia. ring.
Qed.

Lemma sum_from_ext_below {A : Type} (f g : nat -> A -> R) (l : list A) (i : nat) :
  (forall k a, (i <= k < i + length l)%nat -> f k a = g k a) ->
  Core.sum_from f i l = Core.sum_from g i l.
Proof.
  revert i. induction l as [|a l IH]; intros i Hfg; simpl; [reflexivity|].
  rewrite Hfg by (simpl; lia). f_equal. apply IH.
  intros k b Hk. apply Hfg. simpl. lia.
Qed.

Lemma sum_from_rev {A : Type} (f : nat -> A -> R) (l : list A) :
  Core.sum_from f 0 (rev l) = Core.sum_from (fun k a => f (length l - 1 - k)%nat a) 0 l.
Proof.
  induction l as [|a l IH]; [reflexivity|].
  cbn [rev]. rewrite sum_from_app, IH, length_rev. cbn [Core.sum_from length Nat.add].
  rewrite sum_from_shift.
  replace (S (length l) - 1 - 0)%nat with (length l) by lia.
  rewrite (sum_from_ext (fun k b => f (S (length l) - 1 - S k)%nat b)
             (fun k b => f (length l - 1 - k)%nat b))
    by (intros k b; f_equal; lia).
  ring.
Qed.

Lemma sum_from_map {A B : Type} (f : nat -> B -> R) (h : A -> B) (l : list A) (i : nat) :
  Core.sum_from f i (map h l) = Core.sum_from (fun k a => f k (h a)) i l.
Proof.
  revert i. induction l as [|a l IH]; intros i; simpl; [reflexivity|].
  now rewrite IH.
Qed.

Lemma sum_from_affine {A : Type} (w : nat -> R) (g : A -> R) (a b : R) (l : list A) (i : nat) :
  Core.sum_from (fun k p => w k * (a * g p + b)) i l
  = a * Core.sum_from (fun k p => w k * g p) i l
    + b * Core.sum_from (fun k (_ : A) => w k) i l.
Proof.
  revert i. induction l as [|p l IH]; intros i; simpl; [ring|].
  rewrite IH. ring.
Qed.

Lemma bernstein_weight_mirror (n k : nat) (t : R) :
  (k <= n)%nat ->
  Js.bernstein_weight n (n - k) t = Js.bernstein_weight n k (1 - t).
Proof.
  intros Hk. unfold Js.bernstein_weight.
  rewrite binomial_symmetric by assumption.
  replace (n - (n - k))%nat with k by lia.
  replace (1 - (1 - t)) with t by ring. ring.
Qed.

Lemma bezier_point_at_0 (cps : list Point) (p : Point) :
  cps !! 0%nat = Some p -> Js.bezier_point cps 0 = p.
Proof.
  intros Hp. unfold Js.bezier_point. rewrite bezier_from_sum. cbn [fst snd].
  rewrite (sum_from_single _ fst cps 0 0 p), (sum_from_single _ snd cps 0 0 p);
    try assumption;
    try (intros k Hk; cbn [Nat.add] in Hk);
    try rewrite bernstein_weight_at_0;
    try (case_decide; [reflexivity || contradiction | reflexivity || contradiction]).
  destruct p; cbn [fst snd]. f_equal; ring.
Qed.

End BezierShape.

(** X12: for [t] between 0 and 1 the curve point is a weighted mean of the
    control points, so it stays inside every box that holds them. *)
Theorem bezier_point_in_bounding_box (controlPoints : list Point) (t lo_x hi_x lo_y hi_y : R) :
  controlPoints <> [] ->
  0 <= t <= 1 ->
  Forall (fun p : Point => lo_x <= fst p <= hi_x /\ lo_y <= snd p <= hi_y) controlPoints ->
  lo_x <= fst (Js.bezier_point controlPoints t) <= hi_x
  /\ lo_y <= snd (Js.bezier_point controlPoints t) <= hi_y.
Proof.
  intros Hne Ht Hbox.
  apply bezier_point_between; try assumption;
    eapply Forall_impl; try exact Hbox; cbn beta; tauto.
Qed.

Lemma bezier_point_in_bounding_box_witness :
  0 <= fst (Js.bezier_point [(0, 0); (0, 1); (1, 0)] (1 / 2)) <= 1
  /\ 0 <= snd (Js.bezier_point [(0, 0); (0, 1); (1, 0)] (1 / 2)) <= 1.
Proof.
  apply (bezier_point_in_bounding_box [(0, 0); (0, 1); (1, 0)] (1 / 2) 0 1 0 1).
  - discriminate.
  - lra.
  - repeat constructor; simpl; lra.
Defined.

(** X13: the curve of the control points in reverse order is the same curve
    run backwards. *)
Theorem bezier_point_reverse (controlPoints : list Point) (t : R) :
  Js.bezier_point (rev controlPoints) t = Js.bezier_point controlPoints (1 - t).
Proof.
  unfold Js.bezier_point. rewrite !bezier_from_sum, length_rev. cbn [fst snd].
  rewrite !sum_from_rev.
  f_equal; f_equal; apply sum_from_ext_below; intros k p Hk;
    (replace (length controlPoints - 1 - k)%nat with ((length controlPoints - 1) - k)%nat by lia);
    rewrite bernstein_weight_mirror by lia; reflexivity.
Qed.

(** X14: scaling and shifting the control points, each coordinate on its
    own, scales and shifts the curve point in the same way. *)
Theorem bezier_point_affine (controlPoints : list Point) (t a b c d : R) :
  controlPoints <> [] ->
  Js.bezier_point (map (fun p : Point => (a * fst p + b, c * snd p + d)) controlPoints) t
  = (a * fst (Js.bezier_point controlPoints t) + b,
     c * snd (Js.bezier_point controlPoints t) + d).
Proof.
  intros Hne. unfold Js.bezier_point.
  rewrite !bezier_from_sum, length_map. cbn [fst snd].
  rewrite !sum_from_map. cbn [fst snd].
  rewrite !sum_from_affine, (bernstein_weights_total t controlPoints Hne).
  unfold Point. f_equal; ring.
Qed.

Lemma bezier_point_affine_witness :
  Js.bezier_point (map (fun p : Point => (2 * fst p + 1, 3 * snd p + 0)) [(0, 0); (1, 1)]) (1 / 2)
  = (2 * fst (Js.bezier_point [(0, 0); (1, 1)] (1 / 2)) + 1,
     3 * snd (Js.bezier_point [(0, 0); (1, 1)] (1 / 2)) + 0).
Proof.
  apply (bezier_point_affine [(0, 0); (1, 1)] (1 / 2) 2 1 3 0). discriminate.
Defined.

(** X15: a segment of Cupid's bow, evaluated from [start], [control] and
    [end], is the quadratic curve
    [(1 - t)^2 start + 2 t (1 - t) control + t^2 end]. *)
Theorem bezier_point_quadratic (p_start p_control p_end : Point) (t : R) :
  Js.bezier_point [p_start; p_control; p_end] t
  = ((1 - t) ^ 2 * fst p_start + 2 * t * (1 - t) * fst p_control + t ^ 2 * fst p_end,
     (1 - t) ^ 2 * snd p_start + 2 * t * (1 - t) * snd p_control + t ^ 2 * snd p_end).
Proof.
  unfold Js.bezier_point, Js.bezier_from, Js.bernstein_weight. simpl. f_equal; ring.
Qed.

(** X16: the samples of [evaluateBezierCurve] begin at the first control
    point, and when the control points lie in the unit square, where the
    landmarks are, every sample lies in it. *)
Theorem evaluateBezierCurve_in_unit_square (controlPoints : list Point) (numPoints : nat)
  (first : Point) :
  (0 < numPoints)%nat ->
  controlPoints !! 0%nat = Some first ->
  Forall (fun p : Point => 0 <= fst p <= 1 /\ 0 <= snd p <= 1) controlPoints ->
  Js.evaluateBezierCurve controlPoints numPoints !! 0%nat = Some first
  /\ Forall (fun p : Point => 0 <= fst p <= 1 /\ 0 <= snd p <= 1)
       (Js.evaluateBezierCurve controlPoints numPoints).
Proof.
  intros Hn Hfirst Hbox. split.
  - unfold Js.evaluateBezierCurve, Js.t_values.
    rewrite Nat.add_1_r. cbn [Js.for_t].
    destruct (Rle_dec 0 1) as [_ | Hno]; [|lra].
    cbn [map lookup list_lookup]. now rewrite (bezier_point_at_0 _ first).
  - apply Forall_forall. intros p Hp.
    apply evaluateBezierCurve_samples in Hp; [|assumption].
    destruct Hp as (k & Hk & ->).
    assert (Hne : controlPoints <> []) by (intros ->; discriminate).
    apply lt_0_INR in Hn. apply le_INR in Hk. pose proof (pos_INR k) as Hk0.
    apply bezier_point_between; try assumption.
    + split.
      * apply Rmult_le_pos; [assumption|]. apply Rlt_le, Rdiv_lt_0_compat; lra.
      * apply (Rmult_le_reg_r (INR numPoints)); [assumption|].
        replace (INR k * (1 / INR numPoints) * INR numPoints) with (INR k) by (field; lra).
        lra.
    + eapply Forall_impl; [|exact Hbox]. cbn beta. tauto.
    + eapply Forall_impl; [|exact Hbox]. cbn beta. tauto.
Qed.

Lemma evaluateBezierCurve_in_unit_square_witness :
  Js.evaluateBezierCurve [(0, 0); (1, 1)] 50 !! 0%nat = Some (0, 0).
Proof.
  apply (evaluateBezierCurve_in_unit_square [(0, 0); (1, 1)] 50 (0, 0)).
  - lia.
  - reflexivity.
  - repeat constructor; simpl; lra.
Defined.

(** ** More on [generateFeaturePoints] *)
Lemma mapM_Normal_inv {A B : Type} (f : A -> Completion B) (P : B -> Prop) (l : list A)
  (r : list B) :
  (forall a b, f a = Normal b -> P b) ->
  mapM f l = Normal r -> Forall P r.
Proof.
  intros Hf. revert r. induction l as [|a l IH]; intros r; cbn [mapM].
  - intros [= <-]. constructor.
  - destruct (f a) as [b|e] eqn:Hb; [|discriminate]. cbn.
    destruct (mapM f l) as [bs|e]; [|discriminate]. cbn.
    intros [= <-]. constructor; eauto.
Qed.

Section Tagged.

Variable feature : string.

Let tagged (p : FeaturePoint) : Prop := fp_type p = curve /\ fp_feature p = feature.

Lemma curve_point_tagged (x y : R) : tagged (Js.curve_point feature x y).
Proof. split; reflexivity. Qed.

Lemma spline_points_tagged (spline : Spline) (pts : list FeaturePoint) :
  Js.spline_points feature spline = Normal pts -> Forall tagged pts.
Proof.
  apply mapM_Normal_inv. intros i p.
  destruct (spline_coefficients spline !! 0%nat); [|discriminate].
  destruct (spline_coefficients spline !! 1%nat); [|discriminate].
  intros [= <-]. apply curve_point_tagged.
Qed.

Lemma bezier_points_tagged (cps : list Point) : Forall tagged (Js.bezier_points feature cps).
Proof.
  unfold Js.bezier_points. apply Forall_forall. intros p Hp.
  apply in_map_iff in Hp. destruct Hp as (q & <- & _). apply curve_point_tagged.
Qed.

Lemma eye_points_tagged (center : Point) (a b theta : R) :
  Forall tagged (Js.eye_points feature center a b theta).
Proof.
  unfold Js.eye_points. apply Forall_forall. intros p Hp.
  apply in_map_iff in Hp. destruct Hp as (q & <- & _). apply curve_point_tagged.
Qed.

Lemma hermite_points_tagged (y_vals coeffs : list R) :
  Forall tagged (Js.hermite_points feature y_vals coeffs).
Proof.
  induction y_vals as [|y0 rest IH]; [constructor|].
  destruct rest as [|y1 rest]; [constructor|].
  cbn [Js.hermite_points]. apply Forall_app. split; [|exact IH].
  apply Forall_forall. intros p Hp.
  apply in_map_iff in Hp. destruct Hp as (q & <- & _). apply curve_point_tagged.
Qed.

Lemma bow_points_tagged (bow : gmap string BowSegment) (side : string)
  (pts : list FeaturePoint) :
  Js.bow_points feature bow side = Normal pts -> Forall tagged pts.
Proof.
  unfold Js.bow_points. destruct (bow !! side); [|discriminate].
  intros [= <-]. apply bezier_points_tagged.
Qed.

Lemma lip_points_tagged (curves : gmap string (list Point)) (part : string)
  (pts : list FeaturePoint) :
  Js.lip_points feature curves part = Normal pts -> Forall tagged pts.
Proof.
  unfold Js.lip_points. destruct (curves !! part); [|discriminate].
  intros [= <-]. apply bezier_points_tagged.
Qed.

Lemma generateFeaturePoints_tagged (equation : FeatureEquation) (pts : list FeaturePoint) :
  snd (Js.generateFeaturePoints feature equation) = Normal pts -> Forall tagged pts.
Proof.
  unfold Js.generateFeaturePoints.
  destruct (String.eqb (fe_type equation) "piecewise_spline").
  { cbn [snd]. destruct (fe_payload equation) as [segments| | | |]; try discriminate.
    destruct (segments !! "left") as [l|]; cbn [mbind Completion_bind required]; [|discriminate].
    destruct (Js.spline_points feature l) as [ls|] eqn:Hl;
      cbn [mbind Completion_bind required]; [|discriminate].
    destruct (segments !! "right") as [r|]; cbn [mbind Completion_bind required]; [|discriminate].
    destruct (Js.spline_points feature r) as [rs|] eqn:Hr;
      cbn [mbind Completion_bind required]; [|discriminate].
    intros [= <-]. apply Forall_app. eauto using spline_points_tagged. }
  destruct (String.eqb (fe_type equation) "parametric_eye").
  { cbn [snd]. destruct (fe_payload equation); try discriminate.
    intros [= <-]. apply eye_points_tagged. }
  destruct (String.eqb (fe_type equation) "composite_lips").
  { cbn [snd]. destruct (fe_payload equation) as [| |cupids_bow curves| |]; try discriminate.
    assert (Hbow : forall bs,
      match cupids_bow with
      | Some segments =>
          l ← Js.bow_points feature segments "left";
          r ← Js.bow_points feature segments "right";
          Normal (l ++ r)
      | None => Normal []
      end = Normal bs -> Forall tagged bs).
    { destruct cupids_bow as [segments|]; [|intros bs [= <-]; constructor].
      intros bs.
      destruct (Js.bow_points feature segments "left") as [l|] eqn:Hl;
        cbn [mbind Completion_bind required]; [|discriminate].
      destruct (Js.bow_points feature segments "right") as [r|] eqn:Hr;
        cbn [mbind Completion_bind required]; [|discriminate].
      intros [= <-]. apply Forall_app. eauto using bow_points_tagged. }
    destruct (match cupids_bow with Some _ => _ | None => _ end) as [bs|];
      cbn [mbind Completion_bind required]; [|discriminate].
    destruct (Js.lip_points feature curves "upper") as [u|] eqn:Hu;
      cbn [mbind Completion_bind required]; [|discriminate].
    destruct (Js.lip_points feature curves "lower") as [lo|] eqn:Hlo;
      cbn [mbind Completion_bind required]; [|discriminate].
    intros [= <-]. rewrite !Forall_app.
    split; [now apply Hbow|]. split; eapply lip_points_tagged; eassumption. }
  destruct (String.eqb (fe_type equation) "hermite_spline").
  { cbn [snd]. destruct (fe_payload equation); try discriminate.
    intros [= <-]. apply hermite_points_tagged. }
  cbn [snd]. intros [= <-]. constructor.
Qed.

End Tagged.

(** X17: whatever the equation, every point that [generateFeaturePoints]
    returns has the type [curve] and carries the feature it was called for. *)
Theorem generateFeaturePoints_points_tagged (feature : string) (equation : FeatureEquation)
  (pts : list FeaturePoint) :
  snd (Js.generateFeaturePoints feature equation) = Normal pts ->
  Forall (fun p => fp_type p = curve /\ fp_feature p = feature) pts.
Proof. apply generateFeaturePoints_tagged. Qed.

Lemma generateFeaturePoints_points_tagged_witness :
  Forall (fun p => fp_type p = curve /\ fp_feature p = "right_eye")
    (Js.eye_points "right_eye" (1 / 2, 1 / 2) 1 1 0).
Proof.
  apply (generateFeaturePoints_points_tagged "right_eye"
           {| fe_type := "parametric_eye";
              fe_payload := eye_parameters (1 / 2, 1 / 2) 1 1 0 |}).
  reflexivity.
Defined.

Lemma spline_points_outcome (feature : string) (spline : Spline) :
  match spline_coefficients spline with
  | cx :: cy :: _ =>
      exists pts, Js.spline_points feature spline = Normal pts /\ length pts = 50%nat
  | _ => Js.spline_points feature spline = Throw TypeError
  end.
Proof.
  unfold Js.spline_points.
  destruct (spline_coefficients spline) as [|cx [|cy rest]].
  - reflexivity.
  - reflexivity.
  - eexists. split.
    + apply (mapM_Normal_ext _
               (fun i : nat =>
                  Js.curve_point feature
                    (Js.reduce_pow_from 0 cx (spline_degree spline) (INR i / 49) 0)
                    (Js.reduce_pow_from 0 cy (spline_degree spline) (INR i / 49) 0))).
      reflexivity.
    + now rewrite length_map, length_seq.
Qed.

(** X18: for a [piecewise_spline] equation the result is 100 points, 50 for
    each side, when [left] and [right] are there with a row of coefficients
    for [x] and one for [y]; in every other case a [TypeError] is thrown. *)
Theorem piecewise_spline_outcome (feature : string) (segments : gmap string Spline) :
  let complete (side : string) :=
    exists (spline : Spline) (cx cy : list R) (rest : list (list R)),
      segments !! side = Some spline /\ spline_coefficients spline = cx :: cy :: rest in
  match snd (Js.generateFeaturePoints feature
               {| fe_type := "piecewise_spline"; fe_payload := spline_segments segments |}) with
  | Normal pts => length pts = 100%nat /\ complete "left" /\ complete "right"
  | Throw _ => ~ (complete "left" /\ complete "right")
  end.
Proof.
  cbv zeta. unfold Js.generateFeaturePoints.
  cbn [fe_type fe_payload String.eqb Ascii.eqb Bool.eqb snd].
  destruct (segments !! "left") as [sl|] eqn:Hl; cbn [mbind Completion_bind required].
  2:{ intros [(? & ? & ? & ? & [=] & _) _]. }
  pose proof (spline_points_outcome feature sl) as Hsl.
  destruct (spline_coefficients sl) as [|lx [|ly lrest]] eqn:Hlc.
  1,2: rewrite Hsl; cbn [mbind Completion_bind];
       intros [(? & ? & ? & ? & [= <-] & Hc) _]; congruence.
  destruct Hsl as (ls & -> & Hlen_l). cbn [mbind Completion_bind].
  destruct (segments !! "right") as [sr|] eqn:Hr; cbn [mbind Completion_bind required].
  2:{ intros [_ (? & ? & ? & ? & [=] & _)]. }
  pose proof (spline_points_outcome feature sr) as Hsr.
  destruct (spline_coefficients sr) as [|rx [|ry rrest]] eqn:Hrc.
  1,2: rewrite Hsr; cbn [mbind Completion_bind];
       intros [_ (? & ? & ? & ? & [= <-] & Hc)]; congruence.
  destruct Hsr as (rs & -> & Hlen_r). cbn [mbind Completion_bind].
  rewrite length_app, Hlen_l, Hlen_r. split; [reflexivity|]. split.
  - exists sl, lx, ly, lrest. auto.
  - exists sr, rx, ry, rrest. auto.
Qed.

Section Hermite.

Variable feature : string.

Lemma hermite_points_spec (y_vals coeffs : list R) (p : FeaturePoint) :
  In p (Js.hermite_points feature y_vals coeffs) ->
  exists (i : nat) (y0 y1 t : R),
    y_vals !! i = Some y0 /\ y_vals !! S i = Some y1
    /\ 0 <= t <= 1
    /\ fp_y p = y0 + t * (y1 - y0)
    /\ fp_x p = Js.reduce_pow_from 0 (take 4 coeffs) 3 t 0.
Proof.
  induction y_vals as [|y0 rest IH]; [contradiction|].
  destruct rest as [|y1 rest]; [contradiction|].
  cbn [Js.hermite_points]. rewrite in_app_iff, in_map_iff.
  intros [(t & <- & Ht) | Hp].
  - apply t_values_spec in Ht; [|lra]. destruct Ht as (k & -> & Hk).
    exists 0%nat, y0, y1, (INR k * (5 / 100)).
    pose proof (pos_INR k). repeat split; try reflexivity; lra.
  - destruct (IH Hp) as (i & a & b & t & Ha & Hb & Ht & Hy & Hx).
    exists (S i), a, b, t. auto.
Qed.

End Hermite.

(** X19: every point of a [hermite_spline] curve lies between two
    neighbouring values of [parameters.x] in [y], at [y0 + t (y1 - y0)] with
    [0 <= t <= 1], and its [x] is the cubic [c0 t^3 + c1 t^2 + c2 t + c3] of the
    first four coefficients, the same for every pair of neighbours. *)
Theorem hermite_points_between_neighbours (feature : string) (y_vals : list R)
  (c0 c1 c2 c3 : R) (more : list R) (p : FeaturePoint) :
  In p (Js.hermite_points feature y_vals (c0 :: c1 :: c2 :: c3 :: more)) ->
  exists (i : nat) (y0 y1 t : R),
    y_vals !! i = Some y0 /\ y_vals !! S i = Some y1
    /\ 0 <= t <= 1
    /\ Rmin y0 y1 <= fp_y p <= Rmax y0 y1
    /\ fp_x p = c0 * t ^ 3 + c1 * t ^ 2 + c2 * t + c3.
Proof.
  intros Hp. apply hermite_points_spec in Hp.
  destruct Hp as (i & y0 & y1 & t & H0 & H1 & Ht & Hy & Hx).
  exists i, y0, y1, t. repeat split; try assumption; try lra.
  - rewrite Hy. unfold Rmin. destruct (Rle_dec y0 y1); nra.
  - rewrite Hy. unfold Rmax. destruct (Rle_dec y0 y1); nra.
  - rewrite Hx. simpl. ring.
Qed.

Lemma hermite_points_between_neighbours_witness :
  let p := Js.curve_point "nose_bridge"
             (Js.reduce_pow_from 0 (take 4 [1; 0; 0; 0]) 3 0 0) (0 + 0 * (1 - 0)) in
  In p (Js.hermite_points "nose_bridge" [0; 1] [1; 0; 0; 0])
  /\ exists (i : nat) (y0 y1 t : R),
       [0; 1] !! i = Some y0 /\ [0; 1] !! S i = Some y1
       /\ 0 <= t <= 1
       /\ Rmin y0 y1 <= fp_y p <= Rmax y0 y1
       /\ fp_x p = 1 * t ^ 3 + 0 * t ^ 2 + 0 * t + 0.
Proof.
  cbv zeta.
  assert (Hin : In (Js.curve_point "nose_bridge"
                      (Js.reduce_pow_from 0 (take 4 [1; 0; 0; 0]) 3 0 0) (0 + 0 * (1 - 0)))
                   (Js.hermite_points "nose_bridge" [0; 1] [1; 0; 0; 0])).
  { cbn [Js.hermite_points]. apply in_or_app. left. apply in_map_iff.
    exists 0. split; [reflexivity|]. apply t_values_spec; [lra|].
    exists 0%nat. simpl. lra. }
  split; [exact Hin|].
  exact (hermite_points_between_neighbours "nose_bridge" [0; 1] 1 0 0 0 [] _ Hin).
Defined.

(** X20: every point drawn for an eye lies on the ellipse with centre
    [(cx, cy)] and semi-axes [a] and [b] turned by [theta]: in the turned
    coordinates [u], [v] about the centre, [(u / a)^2 + (v / b)^2 = 1]. *)
Theorem eye_points_on_rotated_ellipse (feature : string) (cx cy a b theta : R)
  (p : FeaturePoint) :
  a <> 0 -> b <> 0 ->
  In p (Js.eye_points feature (cx, cy) a b theta) ->
  let u := (fp_x p - cx) * cos theta + (fp_y p - cy) * sin theta in
  let v := (fp_y p - cy) * cos theta - (fp_x p - cx) * sin theta in
  (u / a) ^ 2 + (v / b) ^ 2 = 1.
Proof.
  intros Ha Hb Hp. unfold Js.eye_points in Hp.
  apply in_map_iff in Hp. destruct Hp as (t & <- & _).
  cbn [Js.curve_point Js.eye_point fp_x fp_y fst snd]. cbv zeta.
  pose proof (sin2_cos2 theta) as Hth. pose proof (sin2_cos2 t) as Ht.
  unfold Rsqr in Hth, Ht.
  replace ((cx + a * cos t * cos theta - b * sin t * sin theta - cx) * cos theta
           + (cy + a * cos t * sin theta + b * sin t * cos theta - cy) * sin theta)
    with (a * cos t * (sin theta * sin theta + cos theta * cos theta)) by ring.
  replace ((cy + a * cos t * sin theta + b * sin t * cos theta - cy) * cos theta
           - (cx + a * cos t * cos theta - b * sin t * sin theta - cx) * sin theta)
    with (b * sin t * (sin theta * sin theta + cos theta * cos theta)) by ring.
  rewrite Hth.
  replace ((a * cos t * 1 / a) ^ 2 + (b * sin t * 1 / b) ^ 2)
    with (sin t * sin t + cos t * cos t) by (field; auto).
  exact Ht.
Qed.

Lemma eye_points_on_rotated_ellipse_witness :
  let q := Js.eye_point (0, 0) 2 1 0 0 in
  let p := Js.curve_point "left_eye" (fst q) (snd q) in
  In p (Js.eye_points "left_eye" (0, 0) 2 1 0)
  /\ (((fp_x p - 0) * cos 0 + (fp_y p - 0) * sin 0) / 2) ^ 2
     + (((fp_y p - 0) * cos 0 - (fp_x p - 0) * sin 0) / 1) ^ 2 = 1.
Proof.
  cbv zeta.
  assert (Hin : In (Js.curve_point "left_eye" (fst (Js.eye_point (0, 0) 2 1 0 0))
                      (snd (Js.eye_point (0, 0) 2 1 0 0)))
                   (Js.eye_points "left_eye" (0, 0) 2 1 0)).
  { unfold Js.eye_points. apply in_map_iff.
    exists 0. split; [reflexivity|]. apply t_values_spec; [lra|].
    exists 0%nat. pose proof PI_RGT_0. simpl. lra. }
  split; [exact Hin|].
  apply (eye_points_on_rotated_ellipse "left_eye" 0 0 2 1 0 _); [lra | lra | exact Hin].
Defined.

(** ** [allFeatureData] of [EnhancedFaceVisualizer] *)

Section EnhancedData.

Variable lms : gmap string (list Point).
Variables showCurves showPoints : bool.

Lemma feature_entry_features (feature : string) (equation : FeatureEquation)
  (ps : list FeaturePoint) :
  snd (EnhancedFaceVisualizer.feature_entry lms showCurves showPoints feature equation)
  = Normal ps ->
  Forall (fun p => fp_feature p = feature) ps.
Proof.
  unfold EnhancedFaceVisualizer.feature_entry. cbn [snd].
  destruct (snd (if showCurves then Js.generateFeaturePoints feature equation
                 else ([], Normal []))) as [cs|] eqn:Hcs;
    cbn [mbind Completion_bind]; [|discriminate].
  assert (Hcurves : Forall (fun p => fp_feature p = feature) cs).
  { destruct showCurves.
    - apply generateFeaturePoints_tagged in Hcs.
      eapply Forall_impl; [|exact Hcs]. cbn beta. tauto.
    - injection Hcs as <-. constructor. }
  destruct showPoints; cbn [mbind Completion_bind].
  - destruct (lms !! feature) as [pts|]; cbn [mbind Completion_bind required]; [|discriminate].
    intros [= <-]. apply Forall_app. split; [assumption|].
    unfold EnhancedFaceVisualizer.original_points. apply Forall_forall.
    intros p Hp. apply in_map_iff in Hp. now destruct Hp as (q & <- & _).
  - intros [= <-]. now rewrite app_nil_r.
Qed.

Lemma flatMap_entries_features (entries : list (string * FeatureEquation))
  (all : list FeaturePoint) :
  snd (EnhancedFaceVisualizer.flatMap_entries lms showCurves showPoints entries) = Normal all ->
  Forall (fun p => In (fp_feature p) (map fst entries)) all.
Proof.
  revert all. induction entries as [|[g e] entries IH]; intros all;
    cbn [EnhancedFaceVisualizer.flatMap_entries].
  - intros [= <-]. constructor.
  - destruct (snd (EnhancedFaceVisualizer.feature_entry lms showCurves showPoints g e))
      as [ps|] eqn:Hps; cbn [snd]; [|discriminate].
    destruct (snd (EnhancedFaceVisualizer.flatMap_entries lms showCurves showPoints entries))
      as [qs|]; cbn [mbind Completion_bind]; [|discriminate].
    intros [= <-]. apply Forall_app. split.
    + apply feature_entry_features in Hps.
      eapply Forall_impl; [|exact Hps]. cbn. auto.
    + eapply Forall_impl; [|exact (IH qs eq_refl)]. cbn. auto.
Qed.

Lemma line_data_same (ps : list FeaturePoint) (feature : string) :
  Forall (fun p => fp_feature p = feature) ps ->
  EnhancedFaceVisualizer.line_data ps feature = ps.
Proof.
  unfold EnhancedFaceVisualizer.line_data.
  induction 1 as [|p ps Hp _ IH]; [reflexivity|].
  cbn [List.filter]. rewrite Hp, String.eqb_refl, IH. reflexivity.
Qed.

Lemma line_data_other (ps : list FeaturePoint) (feature : string) :
  Forall (fun p => fp_feature p <> feature) ps ->
  EnhancedFaceVisualizer.line_data ps feature = [].
Proof.
  unfold EnhancedFaceVisualizer.line_data.
  induction 1 as [|p ps Hp _ IH]; [reflexivity|].
  cbn [List.filter]. destruct (String.eqb_spec (fp_feature p) feature); [contradiction|].
  exact IH.
Qed.

Lemma flatMap_entries_line_data (entries : list (string * FeatureEquation))
  (all : list FeaturePoint) (feature : string) (equation : FeatureEquation) :
  NoDup (map fst entries) ->
  In (feature, equation) entries ->
  snd (EnhancedFaceVisualizer.flatMap_entries lms showCurves showPoints entries) = Normal all ->
  snd (EnhancedFaceVisualizer.feature_entry lms showCurves showPoints feature equation)
  = Normal (EnhancedFaceVisualizer.line_data all feature).
Proof.
  revert all. induction entries as [|[g e] entries IH]; intros all Hnodup Hin; [contradiction|].
  cbn [map fst] in Hnodup. apply List.NoDup_cons_iff in Hnodup.
  destruct Hnodup as [Hg Hnodup].
  cbn [EnhancedFaceVisualizer.flatMap_entries].
  destruct (snd (EnhancedFaceVisualizer.feature_entry lms showCurves showPoints g e))
    as [ps|] eqn:Hps; cbn [snd]; [|discriminate].
  destruct (snd (EnhancedFaceVisualizer.flatMap_entries lms showCurves showPoints entries))
    as [qs|] eqn:Hqs; cbn [mbind Completion_bind]; [|discriminate].
  intros [= <-].
  unfold EnhancedFaceVisualizer.line_data. rewrite List.filter_app.
  fold (EnhancedFaceVisualizer.line_data ps feature).
  fold (EnhancedFaceVisualizer.line_data qs feature).
  destruct Hin as [[= -> ->] | Hin].
  - rewrite line_data_same by (eapply feature_entry_features; eassumption).
    rewrite line_data_other, app_nil_r; [assumption|].
    eapply Forall_impl; [|exact (flatMap_entries_features entries qs Hqs)].
    cbn. intros p Hp Heq. rewrite Heq in Hp. exact (Hg Hp).
  - assert (Hne : g <> feature).
    { intros ->. apply Hg. apply in_map_iff. now exists (feature, equation). }
    rewrite line_data_other.
    + now apply IH.
    + eapply Forall_impl; [|exact (feature_entry_features g e ps Hps)].
      cbn. intros p Heq. now rewrite Heq.
Qed.

Lemma flatMap_entries_missing_landmarks (entries : list (string * FeatureEquation))
  (feature : string) :
  showPoints = true ->
  In feature (map fst entries) ->
  lms !! feature = None ->
  snd (EnhancedFaceVisualizer.flatMap_entries lms showCurves showPoints entries)
  = Throw TypeError.
Proof.
  intros -> Hin Hmiss. induction entries as [|[g e] entries IH]; [contradiction|].
  cbn [EnhancedFaceVisualizer.flatMap_entries].
  destruct (snd (EnhancedFaceVisualizer.feature_entry lms showCurves true g e))
    as [ps|[]] eqn:Hps; cbn [snd]; [|reflexivity].
  destruct Hin as [Hg | Hin].
  - cbn [fst] in Hg. subst g. exfalso. revert Hps.
    unfold EnhancedFaceVisualizer.feature_entry. cbn [snd]. rewrite Hmiss.
    destruct (snd (if showCurves then _ else _)); discriminate.
  - rewrite (IH Hin). reflexivity.
Qed.

End EnhancedData.

Lemma flatMap_entries_hidden (lms : gmap string (list Point))
  (entries : list (string * FeatureEquation)) :
  EnhancedFaceVisualizer.flatMap_entries lms false false entries = ([], Normal []).
Proof.
  induction entries as [|[g e] entries IH]; [reflexivity|].
  cbn [EnhancedFaceVisualizer.flatMap_entries EnhancedFaceVisualizer.feature_entry
       fst snd mbind Completion_bind app].
  now rewrite IH.
Qed.

(** X21: with points and curves both hidden [allFeatureData] is empty for
    every [faceData]: nothing is computed, printed or thrown. *)
Theorem allFeatureData_hidden (faceData : option EnhancedFaceData) :
  EnhancedFaceVisualizer.allFeatureData faceData false false = ([], Normal []).
Proof.
  unfold EnhancedFaceVisualizer.allFeatureData.
  destruct faceData as [d|]; [|reflexivity].
  destruct (efd_landmarks d), (efd_equations d); try reflexivity.
  apply flatMap_entries_hidden.
Qed.

(** X22: while the points are shown, an equation whose feature has no entry
    in [landmarks] makes [allFeatureData] throw a [TypeError], whether the
    curves are shown or not. *)
Theorem allFeatureData_missing_landmarks (d : EnhancedFaceData)
  (lms : gmap string (list Point)) (eqs : list (string * FeatureEquation))
  (showCurves : bool) (feature : string) :
  efd_landmarks d = Some lms ->
  efd_equations d = Some eqs ->
  In feature (map fst eqs) ->
  lms !! feature = None ->
  snd (EnhancedFaceVisualizer.allFeatureData (Some d) showCurves true) = Throw TypeError.
Proof.
  intros Hl He Hin Hmiss. unfold EnhancedFaceVisualizer.allFeatureData.
  rewrite Hl, He. now apply (flatMap_entries_missing_landmarks lms showCurves true eqs feature).
Qed.

Lemma allFeatureData_missing_landmarks_witness :
  snd (EnhancedFaceVisualizer.allFeatureData
         (Some {| efd_landmarks := Some ∅;
                  efd_equations :=
                    Some [("jawline", {| fe_type := "spiral"; fe_payload := no_payload |})] |})
         false true)
  = Throw TypeError.
Proof.
  apply (allFeatureData_missing_landmarks
           {| efd_landmarks := Some ∅;
              efd_equations :=
                Some [("jawline", {| fe_type := "spiral"; fe_payload := no_payload |})] |}
           ∅ [("jawline", {| fe_type := "spiral"; fe_payload := no_payload |})]
           false "jawline").
  - reflexivity.
  - reflexivity.
  - left. reflexivity.
  - apply lookup_empty.
Defined.

(** X23: when [allFeatureData] returns and the keys of [equations] are
    distinct, the filter of a chart line, [point.feature === feature], gives
    back what the callback returned for that feature: its curve points, then
    its landmarks. *)
Theorem allFeatureData_line_data (d : EnhancedFaceData)
  (lms : gmap string (list Point)) (eqs : list (string * FeatureEquation))
  (showCurves showPoints : bool) (all : list FeaturePoint)
  (feature : string) (equation : FeatureEquation) :
  efd_landmarks d = Some lms ->
  efd_equations d = Some eqs ->
  NoDup (map fst eqs) ->
  In (feature, equation) eqs ->
  snd (EnhancedFaceVisualizer.allFeatureData (Some d) showCurves showPoints) = Normal all ->
  snd (EnhancedFaceVisualizer.feature_entry lms showCurves showPoints feature equation)
  = Normal (EnhancedFaceVisualizer.line_data all feature).
Proof.
  intros Hl He Hnodup Hin. unfold EnhancedFaceVisualizer.allFeatureData.
  rewrite Hl, He. now apply flatMap_entries_line_data.
Qed.

Lemma allFeatureData_line_data_witness :
  let d := {| efd_landmarks := Some {[ "jawline" := [(0, 0)] ]};
              efd_equations :=
                Some [("jawline", {| fe_type := "spiral"; fe_payload := no_payload |})] |} in
  snd (EnhancedFaceVisualizer.feature_entry {[ "jawline" := [(0, 0)] ]} true true "jawline"
         {| fe_type := "spiral"; fe_payload := no_payload |})
  = Normal (EnhancedFaceVisualizer.line_data
              (EnhancedFaceVisualizer.original_points "jawline" [(0, 0)]) "jawline").
Proof.
  cbv zeta.
  apply (allFeatureData_line_data
           {| efd_landmarks := Some {[ "jawline" := [(0, 0)] ]};
              efd_equations :=
                Some [("jawline", {| fe_type := "spiral"; fe_payload := no_payload |})] |}
           {[ "jawline" := [(0, 0)] ]}
           [("jawline", {| fe_type := "spiral"; fe_payload := no_payload |})]
           true true).
  - reflexivity.
  - reflexivity.
  - repeat constructor. simpl. tauto.
  - left. reflexivity.
  - unfold EnhancedFaceVisualizer.allFeatureData, EnhancedFaceVisualizer.flatMap_entries,
      EnhancedFaceVisualizer.feature_entry.
    cbn [efd_landmarks efd_equations snd fst].
    rewrite lookup_singleton_eq. reflexivity.
Defined.

(** ** [FaceVisualizer] and the list of equations *)

Lemma mapM_outcome {A B : Type} (f : A -> Completion B) (l : list A) :
  match mapM f l with
  | Normal r => Forall2 (fun a b => f a = Normal b) l r
  | Throw e => Exists (fun a => f a = Throw e) l
  end.
Proof.
  induction l as [|a l IH]; cbn [mapM]; [constructor|].
  destruct (f a) as [b|e] eqn:Hb; cbn [mbind Completion_bind].
  - destruct (mapM f l) as [bs|e]; cbn [mbind Completion_bind].
    + now constructor.
    + now apply Exists_cons_tl.
  - now apply Exists_cons_hd.
Qed.

(** X24: [FaceVisualizer] builds one series per landmark feature, in order,
    with 51 curve points when curves are shown and the landmarks when points
    are shown, when every landmark feature has an equation with
    coefficients; otherwise it throws a [TypeError], also with the curves
    hidden. *)
Theorem FaceVisualizer_allFeatureData_outcome (d : VisualizerData)
  (lms : list (string * list Point)) (eqs : gmap string Equation) (showPoints showCurves : bool) :
  vd_landmarks d = Some lms ->
  vd_equations d = Some eqs ->
  let fitted (entry : string * list Point) :=
    exists (e : Equation) (cs : list R),
      eqs !! fst entry = Some e /\ eq_coefficients e = Some cs in
  match FaceVisualizer.allFeatureData (Some d) showPoints showCurves with
  | Normal (chart series) =>
      Forall2 (fun entry s =>
                 series_feature s = fst entry
                 /\ length (series_data s)
                    = ((if showCurves then 51 else 0)
                       + (if showPoints then length (snd entry) else 0))%nat
                 /\ fitted entry)
              lms series
  | Normal no_face_data => False
  | Throw _ => Exists (fun entry => ~ fitted entry) lms
  end.
Proof.
  intros Hl He. cbv zeta. unfold FaceVisualizer.allFeatureData. rewrite Hl, He.
  pose proof (mapM_outcome (FaceVisualizer.feature_series eqs showPoints showCurves) lms) as H.
  destruct (mapM _ lms) as [series|e]; cbn [mbind Completion_bind].
  - eapply Forall2_impl; [|exact H]. cbn beta.
    intros [feature pts] s. unfold FaceVisualizer.feature_series. cbn [fst snd].
    destruct (eqs !! feature) as [eqn|]; cbn [mbind Completion_bind required]; [|discriminate].
    destruct (eq_coefficients eqn) as [cs|] eqn:Hcs;
      cbn [mbind Completion_bind required]; [|discriminate].
    intros [= <-]. cbn [series_feature series_data]. split; [reflexivity|]. split.
    + rewrite length_app. unfold Js.generateEquationPoints.
      destruct showCurves, showPoints; cbn [length];
        rewrite ?curve_samples_length, ?landmark_points_length; reflexivity.
    + eauto.
  - eapply Exists_impl; [|exact H]. cbn beta.
    intros [feature pts]. unfold FaceVisualizer.feature_series. cbn [fst snd].
    intros Hthrow (eqn & cs & Heq & Hcs). rewrite Heq in Hthrow.
    cbn [mbind Completion_bind required] in Hthrow. rewrite Hcs in Hthrow. discriminate.
Qed.

Lemma FaceVisualizer_allFeatureData_outcome_witness :
  match FaceVisualizer.allFeatureData
          (Some {| vd_landmarks := Some [("jawline", [(0, 0)])]; vd_equations := Some ∅ |})
          true false with
  | Normal (chart series) => False
  | Normal no_face_data => False
  | Throw _ => True
  end.
Proof.
  pose proof (FaceVisualizer_allFeatureData_outcome
                {| vd_landmarks := Some [("jawline", [(0, 0)])]; vd_equations := Some ∅ |}
                [("jawline", [(0, 0)])] ∅ true false eq_refl eq_refl) as H.
  cbv zeta in H.
  destruct (FaceVisualizer.allFeatureData _ true false) as [[|series]|e].
  - exact H.
  - apply Forall2_cons_inv_l in H. destruct H as (s & rest & (_ & _ & (e & cs & He & _)) & _).
    rewrite lookup_empty in He. discriminate.
  - exact I.
Defined.

(** X25: the list of equations of the first [FaceEquations] component reads
    [equations[feature].equation] for each of the nine features: it shows nine
    texts when all nine have an entry, and throws a [TypeError] when one of
    them has none. *)
Theorem equation_list_outcome (st : FaceEquations.State) (eqs : gmap string Equation) :
  FaceEquations.st_equations st = Some eqs ->
  match FaceEquations.equation_list st with
  | Normal texts =>
      map fst texts = FaceEquations.features
      /\ Forall (fun text => exists e, eqs !! fst text = Some e /\ snd text = eq_equation e) texts
  | Throw _ => Exists (fun feature => eqs !! feature = None) FaceEquations.features
  end.
Proof.
  intros He. unfold FaceEquations.equation_list. rewrite He.
  pose proof (mapM_outcome
                (fun feature : string =>
                   equation ← required (eqs !! feature); Normal (feature, eq_equation equation))
                FaceEquations.features) as H.
  destruct (mapM _ FaceEquations.features) as [texts|e].
  - induction H as [|feature text fs ts Hhd _ IH]; [split; constructor|].
    destruct (eqs !! feature) as [e|] eqn:Hf; cbn [mbind Completion_bind required] in Hhd;
      [|discriminate].
    injection Hhd as <-. destruct IH as [IH1 IH2]. split.
    + cbn [map fst]. now rewrite IH1.
    + constructor; [|assumption]. exists e. auto.
  - eapply Exists_impl; [|exact H]. cbn beta. intros feature.
    destruct (eqs !! feature); [discriminate | reflexivity].
Qed.

Lemma equation_list_outcome_witness :
  match FaceEquations.equation_list
          (FaceEquations.settled FaceEquations.initial None None (Some ∅)) with
  | Normal texts => map fst texts = FaceEquations.features
  | Throw _ => True
  end.
Proof.
  pose proof (equation_list_outcome
                (FaceEquations.settled FaceEquations.initial None None (Some ∅)) ∅ eq_refl) as H.
  destruct (FaceEquations.equation_list _) as [texts|e]; [exact (proj1 H) | exact I].
Defined.

(** ** The upload handlers *)

Section FaceEquationsRuns.

Import FaceEquations.

Lemma handle_controls (ev : Event) (st : State) :
  st_file (fst (handle ev st))
  = match ev with file_change (Some f) _ => Some f | _ => st_file st end
  /\ st_degree (fst (handle ev st))
     = match ev with degree_change value => Js.parseInt value | _ => st_degree st end
  /\ st_equationType (fst (handle ev st))
     = match ev with type_change value => value | _ => st_equationType st end.
Proof.
  destruct ev as [[f|] url | value | value | feature | response];
    try (repeat split; reflexivity).
  cbn [handle]. unfold uploadImage. destruct (st_file st) eqn:Hfile.
  - destruct response; repeat split; try reflexivity; cbn; now rewrite Hfile.
  - cbn [fst]. rewrite Hfile. repeat split; reflexivity.
Qed.

Lemma run_controls (events : list Event) (st : State)
  (file : option File) (degree type : option string) :
  st_file st = file ->
  st_degree st = from_option Js.parseInt (Num 4) degree ->
  st_equationType st = default "polynomial" type ->
  let st' := fst (run events st) in
  st_file st'
  = fold_left (fun acc ev => match ev with file_change (Some f) _ => Some f | _ => acc end)
              events file
  /\ st_degree st'
     = from_option Js.parseInt (Num 4)
         (fold_left (fun acc ev => match ev with degree_change v => Some v | _ => acc end)
                    events degree)
  /\ st_equationType st'
     = default "polynomial"
         (fold_left (fun acc ev => match ev with type_change v => Some v | _ => acc end)
                    events type).
Proof.
  revert st file degree type. induction events as [|ev events IH];
    intros st file degree type Hf Hd Ht; cbn [run fold_left fst].
  - auto.
  - destruct (handle_controls ev st) as (Hf' & Hd' & Ht').
    apply IH.
    + rewrite Hf', Hf. now destruct ev as [[f|] url | | | |].
    + rewrite Hd', Hd. now destruct ev.
    + rewrite Ht', Ht. now destruct ev.
Qed.

End FaceEquationsRuns.

(** X26: whatever happened before, a click on the upload button posts one
    form for the file chosen last, with the equation type selected last
    ([polynomial] if none was) and the degree that [parseInt] reads from the
    text typed last into the degree input (4 if none was); it posts nothing
    when no file was chosen. *)
Theorem upload_posts_what_the_controls_show (events : list FaceEquations.Event)
  (response : Outcome FaceData) :
  snd (FaceEquations.handle (FaceEquations.upload_click response)
         (fst (FaceEquations.run events FaceEquations.initial)))
  = match FaceEquations.chosen_file events with
    | Some f =>
        [(f, Js.uploadForm
               (default "polynomial" (FaceEquations.selected_type events))
               (from_option Js.parseInt (Num 4) (FaceEquations.typed_degree events)))]
    | None => []
    end.
Proof.
  destruct (run_controls events FaceEquations.initial None None None eq_refl eq_refl eq_refl)
    as (Hf & Hd & Ht).
  cbv zeta in Hf, Hd, Ht.
  unfold FaceEquations.chosen_file, FaceEquations.selected_type, FaceEquations.typed_degree.
  cbn [FaceEquations.handle]. unfold FaceEquations.uploadImage.
  rewrite Hf, Hd, Ht.
  destruct (fold_left _ events None); reflexivity.
Qed.

Section FaceEquationsAutoRuns.

Import FaceEquationsAuto.

Lemma handleFileChange_controls (c : FileChange) (st : State) :
  let r := handleFileChange (fc_file c) (fc_url c) (fc_analysis c) (fc_generation c) st in
  st_equationType (fst r) = st_equationType st
  /\ st_degree (fst r) = st_degree st
  /\ Forall (fun request =>
               match request with
               | analyze _ => True
               | upload _ form => form = Js.uploadForm (st_equationType st) (st_degree st)
               end)
            (snd r).
Proof.
  cbv zeta. unfold handleFileChange, uploadImage.
  destruct (fc_file c) as [f|]; [|cbn; auto].
  destruct (fc_analysis c) as [m| |a]; cbn; auto.
  destruct (fc_generation c) as [m| |g]; cbn; auto.
Qed.

Lemma run_requests (changes : list FileChange) (st : State) :
  Forall (fun request =>
            match request with
            | analyze _ => True
            | upload _ form => form = Js.uploadForm (st_equationType st) (st_degree st)
            end)
         (snd (run changes st)).
Proof.
  revert st. induction changes as [|c changes IH]; intros st; cbn [run snd]; [constructor|].
  destruct (handleFileChange_controls c st) as (Ht & Hd & Hreq). cbv zeta in Ht, Hd, Hreq.
  apply Forall_app. split; [exact Hreq|].
  specialize (IH (fst (handleFileChange (fc_file c) (fc_url c) (fc_analysis c)
                         (fc_generation c) st))).
  now rewrite Ht, Hd in IH.
Qed.

Lemma handleFileChange_faceData (c : FileChange) (st : State) :
  let st' := fst (handleFileChange (fc_file c) (fc_url c) (fc_analysis c) (fc_generation c) st) in
  st_faceData st' = st_faceData st
  \/ exists (f : File) (a : option LandmarkData),
       fc_file c = Some f /\ fc_analysis c = ok a
       /\ fc_generation c = ok (st_faceData st') /\ st_landmarkData st' = a.
Proof.
  cbv zeta. unfold handleFileChange, uploadImage.
  destruct (fc_file c) as [f|]; [|now left].
  destruct (fc_analysis c) as [m| |a]; cbn; auto.
  destruct (fc_generation c) as [m| |g]; cbn; auto.
  right. exists f, a. repeat split; reflexivity.
Qed.

Lemma run_faceData (changes : list FileChange) (st : State) :
  st_faceData (fst (run changes st)) = st_faceData st
  \/ exists (c : FileChange) (f : File) (a : option LandmarkData),
       In c changes /\ fc_file c = Some f /\ fc_analysis c = ok a
       /\ fc_generation c = ok (st_faceData (fst (run changes st))).
Proof.
  revert st. induction changes as [|c changes IH]; intros st; cbn [run fst]; [now left|].
  destruct (IH (fst (handleFileChange (fc_file c) (fc_url c) (fc_analysis c)
                       (fc_generation c) st)))
    as [Hsame | (c' & f & a & Hin & Hf & Ha & Hg)].
  - rewrite Hsame.
    destruct (handleFileChange_faceData c st) as [Hkeep | (f & a & Hf & Ha & Hg & _)].
    + now left.
    + right. exists c, f, a. cbn [In]. auto.
  - right. exists c', f, a. cbn [In]. auto.
Qed.

End FaceEquationsAutoRuns.

(** X27: the second [FaceEquations] component has no control for the
    equation type or the degree: over every run of file changes, each
    request for equations carries the type [polynomial] and the degree 4. *)
Theorem auto_upload_requests (changes : list FaceEquationsAuto.FileChange) :
  Forall (fun request =>
            match request with
            | FaceEquationsAuto.analyze _ => True
            | FaceEquationsAuto.upload _ form =>
                form_equation_type form = "polynomial" /\ form_degree form = Num 4
            end)
         (snd (FaceEquationsAuto.run changes FaceEquationsAuto.initial)).
Proof.
  eapply Forall_impl; [|apply run_requests].
  intros [f | f form]; [auto|]. cbn. now intros ->.
Qed.

(** X28: the face data on show is never made up or cleared by a failure:
    after every run of file changes it is what the component started with, or
    the body of an equations response that was [ok], for a file whose
    analysis was [ok] as well. *)
Theorem auto_faceData_provenance (changes : list FaceEquationsAuto.FileChange) :
  let st := fst (FaceEquationsAuto.run changes FaceEquationsAuto.initial) in
  FaceEquationsAuto.st_faceData st = None
  \/ exists (c : FaceEquationsAuto.FileChange) (f : File) (a : option LandmarkData),
       In c changes
       /\ FaceEquationsAuto.fc_file c = Some f
       /\ FaceEquationsAuto.fc_analysis c = ok a
       /\ FaceEquationsAuto.fc_generation c = ok (FaceEquationsAuto.st_faceData st).
Proof.
  cbv zeta. destruct (run_faceData changes FaceEquationsAuto.initial) as [Hsame | H].
  - left. exact Hsame.
  - right. exact H.
Qed.

Lemma auto_upload_requests_example :
  snd (FaceEquationsAuto.run
         [{| FaceEquationsAuto.fc_file := Some "face.png";
             FaceEquationsAuto.fc_url := "blob:1";
             FaceEquationsAuto.fc_analysis := ok None;
             FaceEquationsAuto.fc_generation := not_ok |}]
         FaceEquationsAuto.initial)
  = [FaceEquationsAuto.analyze "face.png";
     FaceEquationsAuto.upload "face.png" (Js.uploadForm "polynomial" (Num 4))].
Proof. reflexivity. Qed.

(** ** The canvas of [ImageLandmarks] *)

Section Canvas.

Variables w h : nat.

Lemma draw_points_vertices (index : nat) (points : list Point) :
  omap ImageLandmarks.vertex (ImageLandmarks.draw_points w h index points)
  = map (fun p : Point => (fst p * INR w, snd p * INR h)) points.
Proof.
  revert index. induction points as [|p points IH]; intros index; [reflexivity|].
  cbn [ImageLandmarks.draw_points map]. cbv zeta.
  cbn [omap list_omap ImageLandmarks.vertex].
  destruct (index =? 0)%nat; cbn [ImageLandmarks.vertex]; now rewrite IH.
Qed.

Lemma draw_feature_vertices (entry : string * list Point) :
  omap ImageLandmarks.vertex (ImageLandmarks.draw_feature w h entry)
  = map (fun p : Point => (fst p * INR w, snd p * INR h)) (snd entry).
Proof.
  unfold ImageLandmarks.draw_feature. cbv zeta.
  cbn [app omap list_omap ImageLandmarks.vertex].
  rewrite !omap_app, draw_points_vertices.
  destruct (ImageLandmarks.is_closed (fst entry)); cbn; now rewrite app_nil_r.
Qed.

Lemma draw_points_squares (index : nat) (points : list Point) :
  length (List.filter ImageLandmarks.is_fill_rect (ImageLandmarks.draw_points w h index points))
  = length points.
Proof.
  revert index. induction points as [|p points IH]; intros index; [reflexivity|].
  cbn [ImageLandmarks.draw_points]. cbv zeta.
  cbn [List.filter ImageLandmarks.is_fill_rect length].
  destruct (index =? 0)%nat; cbn [List.filter ImageLandmarks.is_fill_rect]; now rewrite IH.
Qed.

Lemma draw_points_no_path_end (index : nat) (points : list Point) :
  List.filter ImageLandmarks.is_close_path (ImageLandmarks.draw_points w h index points) = []
  /\ List.filter ImageLandmarks.is_stroke (ImageLandmarks.draw_points w h index points) = [].
Proof.
  revert index. induction points as [|p points IH]; intros index; [split; reflexivity|].
  cbn [ImageLandmarks.draw_points]. cbv zeta.
  cbn [List.filter ImageLandmarks.is_close_path ImageLandmarks.is_stroke].
  destruct (index =? 0)%nat;
    cbn [List.filter ImageLandmarks.is_close_path ImageLandmarks.is_stroke]; apply IH.
Qed.

Lemma draw_feature_counts (entry : string * list Point) :
  length (List.filter ImageLandmarks.is_fill_rect (ImageLandmarks.draw_feature w h entry))
  = length (snd entry)
  /\ length (List.filter ImageLandmarks.is_stroke (ImageLandmarks.draw_feature w h entry))
     = 1%nat
  /\ length (List.filter ImageLandmarks.is_close_path (ImageLandmarks.draw_feature w h entry))
     = (if ImageLandmarks.is_closed (fst entry) then 1 else 0)%nat.
Proof.
  unfold ImageLandmarks.draw_feature. cbv zeta.
  destruct (draw_points_no_path_end 0 (snd entry)) as [Hclose Hstroke].
  rewrite !List.filter_app, Hclose, Hstroke, !length_app, draw_points_squares.
  destruct (ImageLandmarks.is_closed (fst entry)); cbn; repeat split; lia.
Qed.

End Canvas.

(** X29: once the image has loaded, every landmark is drawn as one square
    and each feature as one stroked path, which is closed for the eyes and the
    lips only: the canvas gets as many squares as there are landmarks, one
    [stroke] per feature and one [closePath] per closed feature.  Without
    [imageDimensions] a [TypeError] is thrown instead. *)
Theorem onload_counts (landmarks : list (string * list Point))
  (imageDimensions : option (nat * nat)) :
  match ImageLandmarks.onload landmarks imageDimensions with
  | Normal ops =>
      is_Some imageDimensions
      /\ length (List.filter ImageLandmarks.is_fill_rect ops)
         = length (concat (map snd landmarks))
      /\ length (List.filter ImageLandmarks.is_stroke ops) = length landmarks
      /\ length (List.filter ImageLandmarks.is_close_path ops)
         = length (List.filter (fun entry => ImageLandmarks.is_closed (fst entry)) landmarks)
  | Throw _ => imageDimensions = None
  end.
Proof.
  unfold ImageLandmarks.onload. destruct imageDimensions as [[w h]|]; [|reflexivity].
  cbn [mbind Completion_bind required fst snd]. split; [eauto|].
  cbn [app List.filter ImageLandmarks.is_fill_rect ImageLandmarks.is_stroke
       ImageLandmarks.is_close_path].
  induction landmarks as [|entry landmarks (IH1 & IH2 & IH3)]; [repeat split; reflexivity|].
  destruct (draw_feature_counts w h entry) as (H1 & H2 & H3).
  cbn [flat_map map concat List.filter].
  rewrite !List.filter_app, !length_app, H1, H2, H3, IH1, IH2, IH3.
  repeat split; try reflexivity.
  destruct (ImageLandmarks.is_closed (fst entry)); reflexivity.
Qed.

(** X30: the paths go through the landmarks scaled to the canvas, feature
    by feature and in order; a landmark with coordinates between 0 and 1 is
    therefore joined at a point inside the canvas. *)
Theorem onload_vertices (landmarks : list (string * list Point)) (w h : nat)
  (ops : list CanvasOp) :
  ImageLandmarks.onload landmarks (Some (w, h)) = Normal ops ->
  omap ImageLandmarks.vertex ops
  = map (fun p : Point => (fst p * INR w, snd p * INR h)) (concat (map snd landmarks))
  /\ (Forall (fun p : Point => 0 <= fst p <= 1 /\ 0 <= snd p <= 1) (concat (map snd landmarks)) ->
      Forall (fun v : Point => 0 <= fst v <= INR w /\ 0 <= snd v <= INR h)
             (omap ImageLandmarks.vertex ops)).
Proof.
  intros Hops.
  assert (Hv : omap ImageLandmarks.vertex ops
               = map (fun p : Point => (fst p * INR w, snd p * INR h))
                     (concat (map snd landmarks))).
  { unfold ImageLandmarks.onload in Hops.
    cbn [mbind Completion_bind required fst snd] in Hops. injection Hops as <-.
    cbn [app omap list_omap ImageLandmarks.vertex].
    induction landmarks as [|entry landmarks IH]; [reflexivity|].
    cbn [flat_map map concat]. rewrite omap_app, draw_feature_vertices, IH, map_app.
    reflexivity. }
  split; [exact Hv|]. rewrite Hv. intros Hunit.
  apply Forall_forall. intros v Hin. apply in_map_iff in Hin.
  destruct Hin as (p & <- & Hp). rewrite Forall_forall in Hunit.
  destruct (Hunit p Hp) as [Hx Hy]. cbn [fst snd].
  pose proof (pos_INR w). pose proof (pos_INR h). split; nra.
Qed.

Lemma onload_vertices_witness :
  omap ImageLandmarks.vertex
    ([set_width 10; set_height 20; draw_image 10 20; set_line_width 2]
     ++ flat_map (ImageLandmarks.draw_feature 10 20) [("jawline", [(0, 1)])])
  = map (fun p : Point => (fst p * INR 10, snd p * INR 20))
        (concat (map snd [("jawline", [(0, 1)])])).
Proof.
  apply (onload_vertices [("jawline", [(0, 1)])] 10 20). reflexivity.
Defined.
